(** * 2000s Flashback: the transformation relay

    A shallow embedding of the three pieces of logic of the repository:

    - the Relay Service, the serverless [handler] of the
      [transform-image] function;
    - the Relay Client, [transformImage] of [services/geminiService.ts];
    - the Encoder, [fileToBase64] of the application, together with the
      part of [handleTransform] that consumes both.

    JavaScript values, the few string primitives the code calls and the
    effects it performs (reading the environment, parsing, calling the
    model, logging) are modelled first; the program follows; the
    properties come last. *)

From Stdlib Require Import String Ascii Strings.Byte List Bool NArith ZArith Lia DecimalString.
Import ListNotations.
Local Open Scope list_scope.
Local Open Scope string_scope.
Set Warnings "-register-all".

(** ** JavaScript values and primitives *)

Module JS.

(** The double quote character, U+0022. *)
Definition dq_char : ascii := "034"%char.
Definition dq : string := String dq_char EmptyString.

(** A JavaScript value as JSON and object literals build it.  Strings are
    sequences of 8-bit code units: every string this program handles is
    ASCII (base64 text, media types, messages).  A number is held by the
    text [Number::toString] gives it, which is all the program ever asks
    of a number: whether it is truthy and how it prints.  An object is the
    ordered list of its own properties. *)
Inductive value : Type :=
| Undefined
| Null
| Bool (b : bool)
| Number (repr : string)
| Str (s : string)
| Array (items : list value)
| Object (props : list (string * value)).

(** [ToBoolean]: [undefined], [null], [false], [0], [NaN] and the empty
    string are falsy; everything else, objects and arrays included, is
    truthy. *)
Definition truthy (v : value) : bool :=
  match v with
  | Undefined | Null => false
  | Bool b => b
  | Number r => negb ((r =? "0") || (r =? "NaN"))
  | Str s => negb (s =? EmptyString)
  | Array _ | Object _ => true
  end.

Fixpoint lookup (key : string) (props : list (string * value)) : value :=
  match props with
  | [] => Undefined
  | (k, v) :: rest => if k =? key then v else lookup key rest
  end.

(** [v.key] for a [v] that is neither [null] nor [undefined], and a [key]
    that no built-in prototype defines (the program reads
    [base64ImageData], [mimeType], [style], [error] and
    [transformedBase64] only): an own property of an object, [undefined]
    on every primitive and on arrays. *)
Definition get (v : value) (key : string) : value :=
  match v with
  | Object props => lookup key props
  | _ => Undefined
  end.

(** [v === s] for a string literal [s]. *)
Definition strict_eq_string (v : value) (s : string) : bool :=
  match v with
  | Str t => t =? s
  | _ => false
  end.

(** What a [throw] carries: an instance of [Error] (or of a subclass,
    [name] tells which) with its message, or any other value. *)
Inductive thrown : Type :=
| ErrorObject (name message : string)
| NonError (v : value).

Definition TypeError (message : string) : thrown := ErrorObject "TypeError" message.

(** The object has an own property [key]. *)
Definition has_own (key : string) (props : list (string * value)) : bool :=
  existsb (fun kv => fst kv =? key) props.

(** The texts [Array.prototype.join] puts together: those of the
    elements, from the left, up to the first that throws. *)
Definition element_texts (text : value -> thrown + string)
  : list value -> thrown + list string :=
  fix texts (xs : list value) : thrown + list string :=
    match xs with
    | [] => inr []
    | x :: rest =>
        match text x with
        | inl e => inl e
        | inr t =>
            match texts rest with
            | inl e => inl e
            | inr ts => inr (t :: ts)
            end
        end
    end.

(** [ToString], as [new Error(v)] and template literals apply it.  The
    values are those of JSON, so no property holds a function: an object
    with an own [toString] hides [Object.prototype.toString], neither it
    nor [valueOf] yields a primitive, and the conversion throws; every
    other object prints as [[object Object]].  An array joins the texts
    of its elements, [null] and [undefined] printing as nothing, and
    throws when an element does. *)
Fixpoint ToString (v : value) : thrown + string :=
  match v with
  | Undefined => inr "undefined"
  | Null => inr "null"
  | Bool b => inr (if b then "true" else "false")
  | Number r => inr r
  | Str s => inr s
  | Array items =>
      match element_texts (fun x => match x with
                                     | Undefined | Null => inr EmptyString
                                     | _ => ToString x
                                     end) items with
      | inl e => inl e
      | inr ts => inr (String.concat "," ts)
      end
  | Object props =>
      if has_own "toString" props
      then inl (TypeError "Cannot convert object to primitive value")
      else inr "[object Object]"
  end.

(** *** [JSON.stringify] *)

Definition hex_digit (n : N) : ascii :=
  match n with
  | 0 => "0" | 1 => "1" | 2 => "2" | 3 => "3" | 4 => "4" | 5 => "5"
  | 6 => "6" | 7 => "7" | 8 => "8" | 9 => "9" | 10 => "a" | 11 => "b"
  | 12 => "c" | 13 => "d" | 14 => "e" | _ => "f"
  end%N%char.

(** One code unit inside a JSON string literal ([QuoteJSONString]). *)
Definition quote_char (c : ascii) : string :=
  let n := N_of_ascii c in
  if (n =? 8)%N then "\b"
  else if (n =? 9)%N then "\t"
  else if (n =? 10)%N then "\n"
  else if (n =? 12)%N then "\f"
  else if (n =? 13)%N then "\r"
  else if (n =? 34)%N then String "\" dq
  else if (n =? 92)%N then "\\"
  else if (n <? 32)%N then
    "\u00" ++ String (hex_digit (n / 16)) (String (hex_digit (n mod 16)) EmptyString)
  else String c EmptyString.

Fixpoint quote_body (s : string) : string :=
  match s with
  | EmptyString => EmptyString
  | String c rest => quote_char c ++ quote_body rest
  end.

Definition QuoteJSONString (s : string) : string := dq ++ quote_body s ++ dq.

Definition finite_number (r : string) : bool :=
  negb ((r =? "NaN") || (r =? "Infinity") || (r =? "-Infinity")).

(** [SerializeJSONProperty]: [None] stands for [undefined], which drops
    the property from an object and prints as [null] inside an array. *)
Fixpoint SerializeJSONProperty (v : value) : option string :=
  match v with
  | Undefined => None
  | Null => Some "null"
  | Bool b => Some (if b then "true" else "false")
  | Number r => Some (if finite_number r then r else "null")
  | Str s => Some (QuoteJSONString s)
  | Array items =>
      Some ("[" ++ String.concat ","
                     (map (fun x => match SerializeJSONProperty x with
                                    | Some t => t
                                    | None => "null"
                                    end) items) ++ "]")
  | Object props =>
      Some ("{" ++ String.concat ","
                     (flat_map (fun kv => match SerializeJSONProperty (snd kv) with
                                          | Some t => [QuoteJSONString (fst kv) ++ ":" ++ t]
                                          | None => []
                                          end) props) ++ "}")
  end.

(** [JSON.stringify({ k1: v1, ... })]: applied to an object literal the
    result is always a string. *)
Definition JSON_stringify (props : list (string * value)) : string :=
  match SerializeJSONProperty (Object props) with
  | Some t => t
  | None => "undefined"
  end.

(** *** [String.prototype.split] with a one-character separator *)

Fixpoint split (sep : ascii) (s : string) : list string :=
  match s with
  | EmptyString => [EmptyString]
  | String c rest =>
      if Ascii.eqb c sep then EmptyString :: split sep rest
      else match split sep rest with
           | h :: t => String c h :: t
           | [] => [String c EmptyString]
           end
  end.

(** Reading an array element: [None] is [undefined]. *)
Definition at_index (xs : list string) (i : nat) : option string := nth_error xs i.

(** [!x] for a string that may be [undefined]. *)
Definition falsy_string (x : option string) : bool :=
  match x with
  | None => true
  | Some s => s =? EmptyString
  end.

(** [new Error(v)]: the message is [ToString(v)], which may throw; for
    [undefined] no message is set and the empty one of the prototype
    shows.  [inl] is what the conversion threw, [inr] the new error. *)
Definition new_Error (v : value) : thrown + thrown :=
  match v with
  | Undefined => inr (ErrorObject "Error" EmptyString)
  | _ =>
      match ToString v with
      | inl e => inl e
      | inr message => inr (ErrorObject "Error" message)
      end
  end.

End JS.

(** ** The generative model's SDK, as the Relay Service uses it *)

Module GenAI.

Inductive Modality : Type := IMAGE | TEXT.

(** A part of the request: the image, or the instruction text. *)
Inductive RequestPart : Type :=
| InlineDataPart (data mimeType : JS.value)
| TextPart (text : string).

Record GenerateContentParameters : Type := {
  model : string;
  contents_parts : list RequestPart;
  responseModalities : list Modality
}.

(** The response, with every field optional as the SDK declares it. *)
Record Blob : Type := { data : option string; mimeType : option string }.
Record Part : Type := { inlineData : option Blob; text : option string }.
Record Content : Type := { parts : option (list Part) }.
Record Candidate : Type := { content : option Content }.
Record GenerateContentResponse : Type := { candidates : option (list Candidate) }.

End GenAI.

(** ** Effects: what a run does to the outside, and how it ends *)

Module Eff.

(** The observable steps of the Relay Service, in the order they happen. *)
Inductive effect : Type :=
| EnvRead (name : string)
| JsonParse (text : string)
| ModelCall (apiKey : string) (params : GenAI.GenerateContentParameters)
| FetchCall (url method : string) (headers : list (string * string)) (body : string)
| ConsoleError (label : string) (e : JS.thrown).

Inductive result (A : Type) : Type :=
| Return (a : A)
| Throw (e : JS.thrown).
Arguments Return {A} a.
Arguments Throw {A} e.

(** A computation: the trace of its effects and its completion. *)
Definition M (A : Type) : Type := (list effect * result A)%type.

Definition ret {A} (a : A) : M A := ([], Return a).
Definition throw {A} (e : JS.thrown) : M A := ([], Throw e).
Definition emit (ev : effect) : M unit := ([ev], Return tt).

Definition bind {A B} (c : M A) (k : A -> M B) : M B :=
  match c with
  | (t, Return a) => let (t', r) := k a in ((t ++ t')%list, r)
  | (t, Throw e) => (t, Throw e)
  end.

(** [try { c } catch (error) { h error }]. *)
Definition try_catch {A} (c : M A) (h : JS.thrown -> M A) : M A :=
  match c with
  | (t, Return a) => (t, Return a)
  | (t, Throw e) => let (t', r) := h e in ((t ++ t')%list, r)
  end.

(** Lifting an outcome the platform decides. *)
Definition of_sum {A} (x : JS.thrown + A) : M A :=
  match x with
  | inl e => throw e
  | inr a => ret a
  end.

Definition trace {A} (c : M A) : list effect := fst c.
Definition outcome {A} (c : M A) : result A := snd c.

Definition is_model_call (ev : effect) : bool :=
  match ev with ModelCall _ _ => true | _ => false end.
Definition is_parse (ev : effect) : bool :=
  match ev with JsonParse _ => true | _ => false end.
Definition is_env_read (ev : effect) : bool :=
  match ev with EnvRead _ => true | _ => false end.

(** The collaborator call count of a run. *)
Definition model_calls {A} (c : M A) : nat := length (filter is_model_call (trace c)).

End Eff.

Declare Scope eff_scope.
Delimit Scope eff_scope with eff.
Notation "x <- c ;; k" := (Eff.bind c (fun x => k))
  (at level 61, c at next level, right associativity) : eff_scope.
Notation "c ;;; k" := (Eff.bind c (fun _ => k))
  (at level 61, right associativity) : eff_scope.

(** ** The Relay Service: the [transform-image] function *)

Module RelayService.
Import JS GenAI Eff.

Definition LOFI_PROMPT : string :=
  "Transform this photo to look like it was taken at a party or social event between 2002-2005 with a typical consumer point-and-shoot digital camera. The aesthetic is "
  ++ dq ++ "2000s Nightlife Throwback"
  ++ dq ++ " - think authentic, not overly polished.

Key transformations to apply:
1.  **Simulate On-Camera Flash:** Re-light the image to mimic a direct, on-camera flash. This should create bright, slightly blown-out highlights on the foreground subject (especially faces) and cause the background to appear darker with some vignetting, as if it were a poorly lit room. Avoid making the shadows completely black; some background detail should remain visible.
2.  **Authentic Color Shift:** Adjust the colors to match early digital sensors. This includes slightly boosting saturation and adding a subtle cool tint (blue or magenta), particularly in the mid-tones and shadows.
3.  **Low-Resolution Feel:** Introduce a moderate amount of digital noise/grain and a slight overall softness to the image to replicate a low-megapixel sensor.
4.  **Date Stamp:** Add a classic yellow or orange digital date stamp in the bottom-right corner. Use a common font from that era. The format should be like '04 11 18' (YY MM DD). Use a random date between 2003 and 2005.
5.  **Watermark Logo:** In the bottom-left corner, add a small, semi-transparent watermark logo. The logo should be text-based, saying '2000s FLASHBACK' in a clean, futuristic, sans-serif font (similar to Orbitron or other digital-style fonts). The word 'FLASH' should be a different, vibrant color like neon pink or cyan. The rest of the text should be white.

The transformation should be noticeable and stylistic, but it must respect the original subject and composition. The final image should look like a plausible photograph from that time, not an extreme special effect.".

Definition CUTOUT_PROMPT : string :=
  "Create a fun, "
  ++ dq ++ "paper cutout"
  ++ dq ++ " or scrapbook-style image from the provided photo. The aesthetic is a playful and chaotic 2000s throwback.

Key transformations to apply:
1.  **Isolate and Style Subject:** Identify the main subject(s) in the photo. Create a "
  ++ dq ++ "cutout"
  ++ dq ++ " of them with a distinct, slightly uneven white border, as if they were cut out with scissors.
2.  **Create Artboard Background:** Place the subject cutout onto a simple, flat, colored artboard background. The color should be vibrant and reminiscent of the era, like pastel pink, electric blue, or lime green.
3.  **Add a Random Mix of Themed Objects:** From the extensive list below, randomly select 3 to 5 different objects to generate as small paper cutouts. Scatter them around the main subject. These objects must also have white "
  ++ dq ++ "cutout"
  ++ dq ++ " borders.
    **Iconic 2000s Object List:**
    - A flip phone (like a Motorola RAZR or a Nokia)
    - A blank CD-R with "
  ++ dq ++ "Mix Tape"
  ++ dq ++ " handwritten on it
    - An energy drink can (like Red Bull)
    - An early iPod model with a click wheel
    - A disposable camera
    - A digital pet on a keychain (like a Tamagotchi)
    - A Blockbuster video rental case
    - A portable CD player (Discman)
    - A floppy disk
    - Y2K-style sunglasses (like shield sunglasses)
    - Butterfly hair clips
    - A chunky CRT computer monitor displaying a classic instant messenger window
    - Bubble graffiti text saying one of the following: "
  ++ dq ++ "OMG!"
  ++ dq ++ ", "
  ++ dq ++ "LOL"
  ++ dq ++ ", "
  ++ dq ++ "BFF"
  ++ dq ++ ", "
  ++ dq ++ "Pwned"
  ++ dq ++ ", or "
  ++ dq ++ "Cool!"
  ++ dq ++ ".
4.  **Composition and Shadow:** Arrange all cutouts (the main subject and the randomly selected themed objects) in a dynamic, overlapping, and random-looking composition. Apply a subtle drop shadow to all cutouts to give them a slight 3D effect, making them look like they're sitting on top of the artboard.
5.  **Watermark Logo:** Somewhere on the artboard, place a stylized text logo that says '2000s FLASHBACK'. The logo should fit the scrapbook theme, perhaps looking like another cutout or a sticker. Use a clean, futuristic font. The word 'FLASH' should be a different, vibrant color like neon pink or cyan to make it pop.

The final image should be a creative, fun, and unique collage that screams nostalgia for the early 2000s. The randomness of the objects is key to making each creation feel special.".

(** The event the function runtime hands to the handler, and its answer.
    [headers = []] is a response without a [headers] property. *)
Record HandlerEvent : Type := { httpMethod : string; body : option string }.
Record HandlerResponse : Type := {
  statusCode : N;
  headers : list (string * string);
  response_body : string
}.

(** What the handler runs against: the process environment, the JSON
    parser and the hosted model.  The parser and the model are given by
    their outcome on each input: the handler calls each at most once. *)
Record World : Type := {
  env_API_KEY : option string;
  JSON_parse : string -> JS.thrown + JS.value;
  generateContent : string -> GenerateContentParameters -> JS.thrown + GenerateContentResponse
}.

(** [process.env.API_KEY]. *)
Definition read_env (w : World) : M (option string) :=
  (emit (EnvRead "API_KEY") ;;; ret (env_API_KEY w))%eff.

(** [JSON.parse(text)]. *)
Definition parse (w : World) (text : string) : M value :=
  (emit (JsonParse text) ;;; of_sum (JSON_parse w text))%eff.

(** [new GoogleGenAI({ apiKey }).models.generateContent(params)]. *)
Definition call_model (w : World) (apiKey : string) (params : GenerateContentParameters)
  : M GenerateContentResponse :=
  (emit (ModelCall apiKey params) ;;; of_sum (generateContent w apiKey params))%eff.

(** [event.body || '{}']. *)
Definition body_or_default (event : HandlerEvent) : string :=
  match body event with
  | Some s => if s =? EmptyString then "{}" else s
  | None => "{}"
  end.

(** [const { base64ImageData, mimeType, style } = v]: a [TypeError] when
    [v] is [null] (or [undefined]), the three properties otherwise. *)
Definition destructure (v : value) : M (value * value * value) :=
  match v with
  | Null =>
      throw (TypeError
               "Cannot destructure property 'base64ImageData' of 'JSON.parse(...)' as it is null.")
  | Undefined =>
      throw (TypeError
               "Cannot destructure property 'base64ImageData' of 'JSON.parse(...)' as it is undefined.")
  | _ => ret (get v "base64ImageData", get v "mimeType", get v "style")
  end.

(** [response.candidates[0].content.parts], ready to be iterated: each
    missing link raises a [TypeError]. *)
Definition response_parts (response : GenerateContentResponse) : M (list Part) :=
  match candidates response with
  | None => throw (TypeError "Cannot read properties of undefined (reading '0')")
  | Some [] => throw (TypeError "Cannot read properties of undefined (reading 'content')")
  | Some (c :: _) =>
      match content c with
      | None => throw (TypeError "Cannot read properties of undefined (reading 'parts')")
      | Some ct =>
          match parts ct with
          | None =>
              throw (TypeError "response.candidates[0].content.parts is not iterable")
          | Some ps => ret ps
          end
      end
  end.

Definition no_image_response : HandlerResponse :=
  {| statusCode := 500;
     headers := [];
     response_body :=
       JSON_stringify [("error", Str "The AI model did not return an image. Please try a different photo.")] |}.

Definition image_response (b : Blob) : HandlerResponse :=
  {| statusCode := 200;
     headers := [("Content-Type", "application/json")];
     response_body :=
       JSON_stringify [("transformedBase64",
                        match data b with Some d => Str d | None => Undefined end)] |}.

(** The [for (const part of ...)] loop and the [return] after it. *)
Fixpoint map_parts (ps : list Part) : HandlerResponse :=
  match ps with
  | [] => no_image_response
  | part :: rest =>
      match inlineData part with
      | Some b => image_response b
      | None => map_parts rest
      end
  end.

Definition method_not_allowed : HandlerResponse :=
  {| statusCode := 405; headers := []; response_body := "Method Not Allowed" |}.

Definition configuration_error : HandlerResponse :=
  {| statusCode := 500;
     headers := [];
     response_body :=
       JSON_stringify [("error", Str "Server configuration error: API key is not set up.")] |}.

Definition missing_fields : HandlerResponse :=
  {| statusCode := 400;
     headers := [];
     response_body := JSON_stringify [("error", Str "Missing required image data or style.")] |}.

Definition internal_error : HandlerResponse :=
  {| statusCode := 500;
     headers := [];
     response_body :=
       JSON_stringify [("error", Str "An internal error occurred while transforming the image.")] |}.

(** [style === 'lofi' ? LOFI_PROMPT : CUTOUT_PROMPT]. *)
Definition select_prompt (style : value) : string :=
  if strict_eq_string style "lofi" then LOFI_PROMPT else CUTOUT_PROMPT.

Definition model_request (base64ImageData mimeType : value) (prompt : string)
  : GenerateContentParameters :=
  {| model := "gemini-2.5-flash-image-preview";
     contents_parts := [InlineDataPart base64ImageData mimeType; TextPart prompt];
     responseModalities := [IMAGE; TEXT] |}.

(** The body of the [try] block. *)
Definition transform (w : World) (API_KEY : string) (event : HandlerEvent) : M HandlerResponse :=
  (parsed <- parse w (body_or_default event) ;;
   fields <- destructure parsed ;;
   let '(base64ImageData, mimeType, style) := fields in
   if negb (truthy base64ImageData) || negb (truthy mimeType) || negb (truthy style) then
     ret missing_fields
   else
     let prompt := select_prompt style in
     response <- call_model w API_KEY (model_request base64ImageData mimeType prompt) ;;
     ps <- response_parts response ;;
     ret (map_parts ps))%eff.

(** The [catch] block. *)
Definition handler_catch (error : thrown) : M HandlerResponse :=
  (emit (ConsoleError "Error in transform-image function:" error) ;;; ret internal_error)%eff.

Definition handler (w : World) (event : HandlerEvent) : M HandlerResponse :=
  if negb (httpMethod event =? "POST") then ret method_not_allowed
  else
    (API_KEY <- read_env w ;;
     if falsy_string API_KEY then ret configuration_error
     else
       let key := match API_KEY with Some k => k | None => EmptyString end in
       try_catch (transform w key event) handler_catch)%eff.

End RelayService.

(** ** The Relay Client: [transformImage] *)

Module RelayClient.
Import JS Eff.

(** [TransformStyle = 'lofi' | 'cutout']. *)
Inductive TransformStyle : Type := lofi | cutout.

Definition style_id (style : TransformStyle) : string :=
  match style with
  | lofi => "lofi"
  | cutout => "cutout"
  end.

(** What [fetch] resolves with: the status line, and what
    [response.json()] will give when it is called. *)
Record Response : Type := { status : N; json : JS.thrown + JS.value }.

(** [response.ok]: the status is in the range 200-299. *)
Definition ok (r : Response) : bool := ((200 <=? status r) && (status r <=? 299))%N.

(** The network as one request sees it. *)
Record Network : Type := {
  fetch : string -> string -> list (string * string) -> string -> JS.thrown + Response
}.

Definition do_fetch (net : Network) (url method : string)
    (headers : list (string * string)) (body : string) : M Response :=
  (emit (FetchCall url method headers body) ;;; of_sum (fetch net url method headers body))%eff.

(** [v.key], a [TypeError] when [v] is [null] or [undefined]. *)
Definition get_prop (v : value) (key : string) : M value :=
  match v with
  | Null => throw (TypeError ("Cannot read properties of null (reading '" ++ key ++ "')"))
  | Undefined =>
      throw (TypeError ("Cannot read properties of undefined (reading '" ++ key ++ "')"))
  | _ => ret (get v key)
  end.

(** The decimal text of a status code, as a template literal prints it. *)
Definition decimal (n : N) : string := NilZero.string_of_uint (N.to_uint n).

Definition request_body (base64ImageData mimeType : string) (style : TransformStyle) : string :=
  JSON_stringify [("base64ImageData", Str base64ImageData);
                  ("mimeType", Str mimeType);
                  ("style", Str (style_id style))].

(** The body of the [try] block. *)
Definition request (net : Network) (base64ImageData mimeType : string)
    (style : TransformStyle) : M value :=
  (response <- do_fetch net "/.netlify/functions/transform-image" "POST"
                 [("Content-Type", "application/json")]
                 (request_body base64ImageData mimeType style) ;;
   if negb (ok response) then
     let errorData :=
       match json response with
       | inr v => v
       | inl _ => Object [("error", Str "Failed to process the transformation on the server.")]
       end in
     err <- get_prop errorData "error" ;;
     failure <- of_sum (new_Error (if truthy err then err
                                   else Str ("Server responded with status: "
                                               ++ decimal (status response)))) ;;
     throw failure
   else
     result <- of_sum (json response) ;;
     transformedBase64 <- get_prop result "transformedBase64" ;;
     if truthy transformedBase64 then ret transformedBase64 else ret Null)%eff.

(** The [catch] block: every failure leaves as a fresh [Error]. *)
Definition rethrow (error : thrown) : M value :=
  (emit (ConsoleError "Error calling transformation service:" error) ;;;
   match error with
   | ErrorObject _ message => throw (ErrorObject "Error" message)
   | NonError _ =>
       throw (ErrorObject "Error" "An unknown error occurred during image transformation.")
   end)%eff.

Definition transformImage (net : Network) (base64ImageData mimeType : string)
    (style : TransformStyle) : M value :=
  try_catch (request net base64ImageData mimeType style) rethrow.

End RelayClient.

(** ** Base64, the text-safe encoding [FileReader.readAsDataURL] applies *)

Module Base64.

(** The character of a 6-bit group, in the alphabet of RFC 4648. *)
Definition digit (n : N) : ascii :=
  (if n <? 26 then ascii_of_N (65 + n)
   else if n <? 52 then ascii_of_N (71 + n)
   else if n <? 62 then ascii_of_N (n - 4)
   else if n =? 62 then "+"%char
   else "/"%char)%N.

(** The 6-bit group of a character, when it is in the alphabet. *)
Definition sextet (c : ascii) : option N :=
  (let n := N_of_ascii c in
   if (65 <=? n) && (n <=? 90) then Some (n - 65)
   else if (97 <=? n) && (n <=? 122) then Some (n - 71)
   else if (48 <=? n) && (n <=? 57) then Some (n + 4)
   else if n =? 43 then Some 62
   else if n =? 47 then Some 63
   else None)%N.

Definition pad : ascii := "="%char.

Fixpoint encode (bs : list byte) : string :=
  match bs with
  | [] => EmptyString
  | [a] =>
      let a := Byte.to_N a in
      String (digit (a / 4)) (String (digit ((a mod 4) * 16))
        (String pad (String pad EmptyString)))
  | [a; b] =>
      let a := Byte.to_N a in
      let b := Byte.to_N b in
      String (digit (a / 4)) (String (digit ((a mod 4) * 16 + b / 16))
        (String (digit ((b mod 16) * 4)) (String pad EmptyString)))
  | a :: b :: c :: rest =>
      let a := Byte.to_N a in
      let b := Byte.to_N b in
      let c := Byte.to_N c in
      String (digit (a / 4)) (String (digit ((a mod 4) * 16 + b / 16))
        (String (digit ((b mod 16) * 4 + c / 64)) (String (digit (c mod 64))
          (encode rest))))
  end%N.

(** The bytes of one group of four characters; [k] tells how many of the
    three are data (the others come from padding). *)
Definition group_bytes (s0 s1 s2 s3 : N) (k : nat) : option (list byte) :=
  (match Byte.of_N (s0 * 4 + s1 / 16),
         Byte.of_N ((s1 mod 16) * 16 + s2 / 4),
         Byte.of_N ((s2 mod 4) * 64 + s3) with
   | Some a, Some b, Some c => Some (firstn k [a; b; c])
   | _, _, _ => None
   end)%N.

(** The inverse: groups of four characters, padding allowed in the last
    group only; [None] on anything else. *)
Fixpoint decode (s : string) : option (list byte) :=
  match s with
  | EmptyString => Some []
  | String c0 (String c1 (String c2 (String c3 rest))) =>
      match sextet c0, sextet c1 with
      | Some s0, Some s1 =>
          match sextet c2, sextet c3 with
          | Some s2, Some s3 =>
              match group_bytes s0 s1 s2 s3 3, decode rest with
              | Some g, Some bs => Some (g ++ bs)%list
              | _, _ => None
              end
          | Some s2, None =>
              if Ascii.eqb c3 pad && (rest =? EmptyString)
              then group_bytes s0 s1 s2 0 2 else None
          | None, _ =>
              if Ascii.eqb c2 pad && Ascii.eqb c3 pad && (rest =? EmptyString)
              then group_bytes s0 s1 0 0 1 else None
          end
      | _, _ => None
      end
  | _ => None
  end.

End Base64.

(** ** The application: the Encoder and [handleTransform] *)

Module App.
Import JS Eff RelayClient.

(** A [File]: its bytes and its declared [type]. *)
Record File : Type := { contents : list byte; type : string }.

(** How a [FileReader] ends: the [load] event with [reader.result], or the
    [error] event. *)
Inductive ReadOutcome : Type :=
| Load (result : string)
| ReadError (event : value).

(** The media type [readAsDataURL] writes into the data URL: the
    declared type, and [application/octet-stream] for a file that
    declares none. *)
Definition written_type (file : File) : string :=
  if type file =? EmptyString then "application/octet-stream" else type file.

(** [readAsDataURL] on a file that is read to its end: the [load] event,
    with the data URL made of the written type, the [base64] marker and
    the encoded bytes. *)
Definition readAsDataURL (file : File) : ReadOutcome :=
  Load ("data:" ++ written_type file ++ ";base64," ++ Base64.encode (contents file)).

(** What a [FileReader] may end with on a file: the [load] event with
    the data URL, or, when the file cannot be read (it was removed, or
    the permission to read it is gone), the [error] event. *)
Inductive reads (file : File) : ReadOutcome -> Prop :=
| reads_load : reads file (readAsDataURL file)
| reads_error (event : value) : reads file (ReadError event).

(** How a promise ends.  [Pending e]: the callback that was to settle it
    threw [e] instead, and the promise stays pending for ever. *)
Inductive promise (A : Type) : Type :=
| Resolved (a : A)
| Rejected (reason : thrown)
| Pending (uncaught : thrown).
Arguments Resolved {A} a.
Arguments Rejected {A} reason.
Arguments Pending {A} uncaught.

Record ImagePayload : Type := { base64 : string; mimeType : string }.

(** The [reader.onload] callback. *)
Definition onload (result : string) : promise ImagePayload :=
  let parts := split ","%char result in
  let mimePart := at_index parts 0 in
  let base64Part := at_index parts 1 in
  if falsy_string mimePart || falsy_string base64Part then
    Rejected (ErrorObject "Error" "Invalid file format")
  else
    match mimePart, base64Part with
    | Some mimePart, Some base64Part =>
        match at_index (split ":"%char mimePart) 1 with
        | None =>
            Pending (TypeError "Cannot read properties of undefined (reading 'split')")
        | Some afterColon =>
            match at_index (split ";"%char afterColon) 0 with
            | None => Pending (TypeError "Cannot read properties of undefined")
            | Some mimeType => Resolved {| base64 := base64Part; mimeType := mimeType |}
            end
        end
    | _, _ => Rejected (ErrorObject "Error" "Invalid file format")
    end.

(** [fileToBase64], against a reader. *)
Definition fileToBase64 (reader : File -> ReadOutcome) (file : File) : promise ImagePayload :=
  match reader file with
  | Load result => onload result
  | ReadError event => Rejected (NonError event)
  end.

Inductive AppState : Type := idle | loading | displaying | error.

Record Model : Type := {
  originalImage : option File;
  transformedImage : option string;
  appState : AppState;
  errorMessage : string;
  selectedStyle : TransformStyle
}.

(** The [catch] block of [handleTransform]. *)
Definition failed (m : Model) (e : thrown) : Model :=
  {| originalImage := originalImage m;
     transformedImage := transformedImage m;
     appState := error;
     errorMessage := match e with
                     | ErrorObject _ message => message
                     | NonError _ => "An unknown error occurred."
                     end;
     selectedStyle := selectedStyle m |}.

(** [handleTransform]: the model once the handler has run, with the
    trace of the run.  A promise that never settles leaves the
    application in [loading]. *)
Definition handleTransform (reader : File -> ReadOutcome) (net : Network) (m : Model)
  : list effect * Model :=
  match originalImage m with
  | None => ([], m)
  | Some file =>
      let started :=
        {| originalImage := originalImage m;
           transformedImage := transformedImage m;
           appState := loading;
           errorMessage := EmptyString;
           selectedStyle := selectedStyle m |} in
      let report (e : thrown) := ConsoleError "Transformation failed:" e in
      match fileToBase64 reader file with
      | Pending _ => ([], started)
      | Rejected e => ([report e], failed started e)
      | Resolved payload =>
          match transformImage net (base64 payload) (mimeType payload) (selectedStyle m) with
          | (t, Throw e) => ((t ++ [report e])%list, failed started e)
          | (t, Return transformedBase64) =>
              if negb (truthy transformedBase64) then
                let e := ErrorObject "Error"
                           "The AI couldn't transform the image. Please try another one." in
                ((t ++ [report e])%list, failed started e)
              else
                match ToString transformedBase64 with
                | inl e => ((t ++ [report e])%list, failed started e)
                | inr text =>
                    (t,
                     {| originalImage := originalImage m;
                        transformedImage := Some ("data:image/png;base64," ++ text);
                        appState := displaying;
                        errorMessage := EmptyString;
                        selectedStyle := selectedStyle m |})
                end
          end
      end
  end.

End App.

(** ** Numbers: from a JSON literal to the text of its double

    [JSON.parse] reads a number literal as the double nearest to it, and
    [Number::toString] prints a double with the fewest digits that read
    back as the same double.  Both are computed here on exact
    fractions. *)

Module JsNumber.

(** A non-negative double: zero, infinity, or [m * 2^e] with
    [2^52 <= m < 2^53] and [e <= 971], or [m < 2^52] and [e = -1074]. *)
Inductive double : Type :=
| Zero
| Finite (m e : Z)
| Infinite.

Definition double_eqb (x y : double) : bool :=
  match x, y with
  | Zero, Zero | Infinite, Infinite => true
  | Finite m e, Finite m' e' => ((m =? m') && (e =? e'))%Z
  | _, _ => false
  end.

(** [n / d >= b^j], for positive [n], [d] and [b], and any [j]. *)
Definition reaches (b n d j : Z) : bool :=
  (if 0 <=? j then d * b ^ j <=? n else d <=? n * b ^ (- j))%Z.

(** The floor of the binary logarithm of [n / d]. *)
Definition floor_log2 (n d : Z) : Z :=
  (let l := Z.log2 n - Z.log2 d in if reaches 2 n d l then l else l - 1)%Z.

(** The integer nearest to [num / den], the even one of two. *)
Definition round_half_even (num den : Z) : Z :=
  (let q := num / den in
   let r := num mod den in
   if den <? 2 * r then q + 1
   else if 2 * r =? den then (if Z.even q then q else q + 1)
   else q)%Z.

(** The double nearest to [n / d], for positive [n] and [d]
    (round to nearest, ties to even). *)
Definition to_double (n d : Z) : double :=
  (let e := Z.max (floor_log2 n d - 52) (-1074) in
   let m := if 0 <=? e then round_half_even n (d * 2 ^ e)
            else round_half_even (n * 2 ^ (- e)) d in
   let e := if m =? 2 ^ 53 then e + 1 else e in
   let m := if m =? 2 ^ 53 then 2 ^ 52 else m in
   if m =? 0 then Zero else if 971 <? e then Infinite else Finite m e)%Z.

(** The double nearest to [c * 10^x]. *)
Definition of_scaled (c x : Z) : double :=
  (if c <=? 0 then Zero
   else if 0 <=? x then to_double (c * 10 ^ x) 1 else to_double c (10 ^ (- x)))%Z.

(** The number of decimal digits of a positive integer. *)
Definition digits10 (n : Z) : Z :=
  (let k := Z.log2 n * 30103 / 100000 + 1 in
   if 10 ^ k <=? n then k + 1
   else if n <? 10 ^ (k - 1) then k - 1
   else k)%Z.

(** The double of the literal with digits [D] and decimal exponent [E]:
    far outside the range of the doubles the powers are not computed. *)
Definition of_decimal (D E : Z) : double :=
  (if D <=? 0 then Zero
   else
     let k := digits10 D in
     if 310 <? k + E then Infinite
     else if k + E <? -330 then Zero
     else of_scaled D E)%Z.

(** The [n] with [10^(n-1) <= v < 10^n], for [v = vn / vd]. *)
Definition position (vn vd : Z) : Z :=
  (let n := floor_log2 vn vd * 30103 / 100000 + 1 in
   let n := if reaches 10 vn vd n then n + 1 else n in
   let n := if reaches 10 vn vd n then n + 1 else n in
   let n := if reaches 10 vn vd (n - 1) then n else n - 1 in
   let n := if reaches 10 vn vd (n - 1) then n else n - 1 in
   n)%Z.

(** The candidates with [k] digits for the text of [Finite m e], whose
    value is [vn / vd] in position [n]: the two integers around
    [v / 10^(n-k)], and the one of them that reads back as the double,
    the nearer one first. *)
Definition with_digits (m e vn vd n k : Z) : option (Z * Z) :=
  (let x := n - k in
   let num := if 0 <=? x then vn else vn * 10 ^ (- x) in
   let den := if 0 <=? x then vd * 10 ^ x else vd in
   let lo := num / den in
   let r := num mod den in
   let hi := lo + 1 in
   let ok c := double_eqb (of_scaled c x) (Finite m e) in
   let lo_first := (2 * r <? den) || ((2 * r =? den) && Z.even lo) in
   let pick c := if c =? 10 ^ k then Some (10 ^ (k - 1), n + 1) else Some (c, n) in
   if lo_first then (if ok lo then pick lo else if ok hi then pick hi else None)
   else (if ok hi then pick hi else if ok lo then pick lo else None))%Z.

(** The shortest digits: the least [k] that has a candidate. *)
Fixpoint shortest (fuel : nat) (m e vn vd n k : Z) : Z * Z :=
  match fuel with
  | O => (m, 0%Z)
  | S fuel =>
      match with_digits m e vn vd n k with
      | Some sn => sn
      | None => shortest fuel m e vn vd n (k + 1)%Z
      end
  end.

Definition decimal (n : Z) : string := NilZero.string_of_uint (N.to_uint (Z.to_N n)).

Fixpoint zeros (n : nat) : string :=
  match n with
  | O => EmptyString
  | S k => String "0"%char (zeros k)
  end.

(** [Number::toString] on the digits [s] and the position [n]. *)
Definition notation (s n : Z) : string :=
  let ds := decimal s in
  let k := Z.of_nat (String.length ds) in
  (if (k <=? n) && (n <=? 21) then ds ++ zeros (Z.to_nat (n - k))
   else if (0 <? n) && (n <=? 21) then
     String.substring 0 (Z.to_nat n) ds ++ "."
       ++ String.substring (Z.to_nat n) (Z.to_nat (k - n)) ds
   else if (-6 <? n) && (n <=? 0) then "0." ++ zeros (Z.to_nat (- n)) ++ ds
   else
     let exponent := (if n - 1 <? 0 then "-" else "+") ++ decimal (Z.abs (n - 1)) in
     if k =? 1 then ds ++ "e" ++ exponent
     else String.substring 0 1 ds ++ "."
            ++ String.substring 1 (Z.to_nat (k - 1)) ds ++ "e" ++ exponent)%Z.

(** The text [Number::toString] gives a non-negative double. *)
Definition text_of (x : double) : string :=
  match x with
  | Zero => "0"
  | Infinite => "Infinity"
  | Finite m e =>
      (let vn := if 0 <=? e then m * 2 ^ e else m in
       let vd := if 0 <=? e then 1 else 2 ^ (- e) in
       let (s, n) := shortest 17 m e vn vd (position vn vd) 1 in
       notation s n)%Z
  end.

(** The text of the number a literal denotes: [negative] tells its sign,
    [D] is the integer its digits write and [E] its decimal exponent.
    Minus zero prints as zero. *)
Definition literal_text (negative : bool) (D E : Z) : string :=
  match of_decimal D E with
  | Zero => "0"
  | x => (if negative then "-" else EmptyString) ++ text_of x
  end.

Fixpoint digits_value (acc : Z) (ds : string) : Z :=
  match ds with
  | EmptyString => acc
  | String c rest => digits_value (acc * 10 + (Z.of_N (N_of_ascii c) - 48))%Z rest
  end.

End JsNumber.

(** ** A JSON reader for the concrete runs

    The properties below hold for every parser a [World] may carry.  The
    concrete runs need one that computes: this reader follows the JSON
    grammar on texts of 8-bit code units.  A number is read as the
    double nearest to its literal and held by the text of that double.
    An escape above [\u00ff] denotes a code unit that these strings do
    not have, and is not read.  Every text outside the grammar is a
    [SyntaxError]; of its message, which engines word each in their
    way, only two fixed texts are kept. *)

Module JsonReader.
Import JS.

Definition is_ws (c : ascii) : bool :=
  let n := N_of_ascii c in ((n =? 32) || (n =? 9) || (n =? 10) || (n =? 13))%N.

Fixpoint skip_ws (s : string) : string :=
  match s with
  | String c rest => if is_ws c then skip_ws rest else s
  | EmptyString => s
  end.

Definition hex_value (c : ascii) : option N :=
  (let n := N_of_ascii c in
   if (48 <=? n) && (n <=? 57) then Some (n - 48)
   else if (97 <=? n) && (n <=? 102) then Some (n - 87)
   else if (65 <=? n) && (n <=? 70) then Some (n - 55)
   else None)%N.

(** The characters of a string literal after its opening quote, up to and
    including the closing quote. *)
Fixpoint read_string (s : string) : option (string * string) :=
  match s with
  | EmptyString => None
  | String c rest =>
      if Ascii.eqb c dq_char then Some (EmptyString, rest)
      else if Ascii.eqb c "\"%char then
        match rest with
        | String e rest' =>
            let plain (x : ascii) :=
              match read_string rest' with
              | Some (str, tl) => Some (String x str, tl)
              | None => None
              end in
            if Ascii.eqb e dq_char then plain dq_char
            else if Ascii.eqb e "\"%char then plain "\"%char
            else if Ascii.eqb e "/"%char then plain "/"%char
            else if Ascii.eqb e "b"%char then plain "008"%char
            else if Ascii.eqb e "f"%char then plain "012"%char
            else if Ascii.eqb e "n"%char then plain "010"%char
            else if Ascii.eqb e "r"%char then plain "013"%char
            else if Ascii.eqb e "t"%char then plain "009"%char
            else if Ascii.eqb e "u"%char then
              match rest' with
              | String "0"%char (String "0"%char (String h (String l rest''))) =>
                  match hex_value h, hex_value l, read_string rest'' with
                  | Some hv, Some lv, Some (str, tl) =>
                      Some (String (ascii_of_N (hv * 16 + lv)) str, tl)
                  | _, _, _ => None
                  end
              | _ => None
              end
            else None
        | EmptyString => None
        end
      else if (N_of_ascii c <? 32)%N then None
      else match read_string rest with
           | Some (str, tl) => Some (String c str, tl)
           | None => None
           end
  end.

Definition is_digit (c : ascii) : bool :=
  let n := N_of_ascii c in ((48 <=? n) && (n <=? 57))%N.

Fixpoint read_digits (s : string) : string * string :=
  match s with
  | String c rest =>
      if is_digit c then let (ds, tl) := read_digits rest in (String c ds, tl)
      else (EmptyString, s)
  | EmptyString => (EmptyString, s)
  end.

(** The fraction of a number literal, when there is one: a point and
    at least one digit. *)
Definition read_fraction (s : string) : option (string * string) :=
  match s with
  | String "."%char rest =>
      let (ds, tl) := read_digits rest in
      if ds =? EmptyString then None else Some (ds, tl)
  | _ => Some (EmptyString, s)
  end.

(** The exponent of a number literal, when there is one: [e] or [E], an
    optional sign and at least one digit. *)
Definition read_exponent (s : string) : option (Z * string) :=
  match s with
  | String c rest =>
      if Ascii.eqb c "e"%char || Ascii.eqb c "E"%char then
        let (negative, body) :=
          match rest with
          | String "-"%char r => (true, r)
          | String "+"%char r => (false, r)
          | _ => (false, rest)
          end in
        let (ds, tl) := read_digits body in
        if ds =? EmptyString then None
        else
          let n := JsNumber.digits_value 0 ds in
          Some (if negative then (- n)%Z else n, tl)
      else Some (0%Z, s)
  | EmptyString => Some (0%Z, s)
  end.

(** A number literal: an optional minus sign, then [0] alone or digits
    that do not start with [0], then an optional fraction and an
    optional exponent. *)
Definition read_number (s : string) : option (value * string) :=
  let (negative, body) :=
    match s with
    | String "-"%char rest => (true, rest)
    | _ => (false, s)
    end in
  let (ds, tl) :=
    match body with
    | String "0"%char rest => ("0", rest)
    | _ => read_digits body
    end in
  if ds =? EmptyString then None
  else
    match read_fraction tl with
    | None => None
    | Some (fs, tl1) =>
        match read_exponent tl1 with
        | None => None
        | Some (exponent, tl2) =>
            Some (Number (JsNumber.literal_text negative
                            (JsNumber.digits_value 0 (ds ++ fs))
                            (exponent - Z.of_nat (String.length fs))),
                  tl2)
        end
    end.

(** Defining a property: a repeated key keeps its place and takes the
    later value. *)
Fixpoint set_prop (k : string) (v : value) (props : list (string * value))
  : list (string * value) :=
  match props with
  | [] => [(k, v)]
  | (k', v') :: rest => if k' =? k then (k, v) :: rest else (k', v') :: set_prop k v rest
  end.

Definition starts_with (p s : string) : option string :=
  if String.prefix p s then Some (String.substring (String.length p) (String.length s - String.length p) s)
  else None.

Fixpoint read_value (fuel : nat) (s : string) : option (value * string) :=
  match fuel with
  | O => None
  | S fuel =>
      match skip_ws s with
      | EmptyString => None
      | String c rest as t =>
          if Ascii.eqb c "{"%char then
            match skip_ws rest with
            | String "}"%char tl => Some (Object [], tl)
            | _ => read_members fuel rest []
            end
          else if Ascii.eqb c "["%char then
            match skip_ws rest with
            | String "]"%char tl => Some (Array [], tl)
            | _ => read_elements fuel rest []
            end
          else if Ascii.eqb c dq_char then
            match read_string rest with
            | Some (str, tl) => Some (Str str, tl)
            | None => None
            end
          else
            match starts_with "true" t, starts_with "false" t, starts_with "null" t with
            | Some tl, _, _ => Some (Bool true, tl)
            | _, Some tl, _ => Some (Bool false, tl)
            | _, _, Some tl => Some (Null, tl)
            | _, _, _ => read_number t
            end
      end
  end
with read_members (fuel : nat) (s : string) (acc : list (string * value))
  : option (value * string) :=
  match fuel with
  | O => None
  | S fuel =>
      match skip_ws s with
      | String c rest =>
          if Ascii.eqb c dq_char then
            match read_string rest with
            | Some (k, tl) =>
                match skip_ws tl with
                | String ":"%char tl1 =>
                    match read_value fuel tl1 with
                    | Some (v, tl2) =>
                        match skip_ws tl2 with
                        | String ","%char tl3 => read_members fuel tl3 (set_prop k v acc)
                        | String "}"%char tl3 => Some (Object (set_prop k v acc), tl3)
                        | _ => None
                        end
                    | None => None
                    end
                | _ => None
                end
            | None => None
            end
          else None
      | EmptyString => None
      end
  end
with read_elements (fuel : nat) (s : string) (acc : list value) : option (value * string) :=
  match fuel with
  | O => None
  | S fuel =>
      match read_value fuel s with
      | Some (v, tl) =>
          match skip_ws tl with
          | String ","%char tl1 => read_elements fuel tl1 (acc ++ [v])%list
          | String "]"%char tl1 => Some (Array (acc ++ [v])%list, tl1)
          | _ => None
          end
      | None => None
      end
  end.

(** [JSON.parse] for the concrete runs: one value and nothing after it. *)
Definition JSON_parse (text : string) : thrown + value :=
  match read_value (S (String.length text)) text with
  | Some (v, tl) =>
      match skip_ws tl with
      | EmptyString => inr v
      | _ => inl (ErrorObject "SyntaxError" "Unexpected non-whitespace character after JSON")
      end
  | None => inl (ErrorObject "SyntaxError" "Unexpected token in JSON")
  end.

End JsonReader.

(** ** Vocabulary of the statements *)

Module Spec.
Import JS GenAI Eff RelayService RelayClient.

(** The presence check of the handler, on the parsed body. *)
Definition presence_check (parsed : value) : bool :=
  truthy (get parsed "base64ImageData") && truthy (get parsed "mimeType")
  && truthy (get parsed "style").

(** The style is one of the two supported identifiers. *)
Definition supported_style (style : value) : bool :=
  strict_eq_string style "lofi" || strict_eq_string style "cutout".

(** The request the handler sends to the model for a parsed body. *)
Definition request_of (parsed : value) : GenerateContentParameters :=
  model_request (get parsed "base64ImageData") (get parsed "mimeType")
    (select_prompt (get parsed "style")).

(** The instruction text of a request to the model. *)
Definition instruction (params : GenerateContentParameters) : list string :=
  flat_map (fun p => match p with TextPart t => [t] | InlineDataPart _ _ => [] end)
    (contents_parts params).

Definition no_inline_data (p : Part) : Prop := inlineData p = None.

(** The property value [JSON.stringify] is given for a field that may be
    [undefined]. *)
Definition optional_string (x : option string) : value :=
  match x with Some d => Str d | None => Undefined end.

(** A character occurs in a string. *)
Fixpoint has_char (p : ascii -> bool) (s : string) : bool :=
  match s with
  | EmptyString => false
  | String c rest => p c || has_char p rest
  end.

(** The text before the first character that satisfies [stop]. *)
Fixpoint take_until (stop : ascii -> bool) (s : string) : string :=
  match s with
  | EmptyString => EmptyString
  | String c rest => if stop c then EmptyString else String c (take_until stop rest)
  end.

(** The text after the first character that satisfies [stop]. *)
Fixpoint after (stop : ascii -> bool) (s : string) : option string :=
  match s with
  | EmptyString => None
  | String c rest => if stop c then Some rest else after stop rest
  end.

Definition is_comma (c : ascii) : bool := Ascii.eqb c ","%char.
Definition is_colon (c : ascii) : bool := Ascii.eqb c ":"%char.
Definition is_semicolon (c : ascii) : bool := Ascii.eqb c ";"%char.

(** The three characters the Encoder cuts the data URL at. *)
Definition is_separator (c : ascii) : bool := is_semicolon c || is_colon c || is_comma c.

(** The reply [transformImage] gets from the network. *)
Definition reply_to (net : Network) (base64ImageData mimeType : string)
    (style : TransformStyle) : thrown + Response :=
  fetch net "/.netlify/functions/transform-image" "POST"
    [("Content-Type", "application/json")] (request_body base64ImageData mimeType style).

(** An error that carries a message. *)
Definition carries_message (e : thrown) : bool :=
  match e with
  | ErrorObject _ message => negb (message =? EmptyString)
  | NonError _ => true
  end.

(** A reply of the network whose failures are worded: the errors the
    platform raises carry a message, and the [error] field of a
    non-success body is a string whenever it is truthy. *)
Definition worded_reply (reply : thrown + Response) : bool :=
  match reply with
  | inl e => carries_message e
  | inr r =>
      match json r with
      | inl e => negb (ok r) || carries_message e
      | inr v =>
          ok r || match get v "error" with
                  | Str _ => true
                  | other => negb (truthy other)
                  end
      end
  end.

End Spec.

(** ** Concrete worlds for the runs *)

Module Sample.
Import JS GenAI Eff RelayService RelayClient App.

Definition png_part : Part :=
  {| inlineData := Some {| data := Some "QUJD"; GenAI.mimeType := Some "image/png" |};
     text := None |}.

Definition jpeg_part : Part :=
  {| inlineData := Some {| data := Some "REVG"; GenAI.mimeType := Some "image/jpeg" |};
     text := None |}.

Definition text_part : Part := {| inlineData := None; text := Some "Here is your photo." |}.

Definition respond (ps : list Part) : GenerateContentResponse :=
  {| candidates := Some [ {| content := Some {| parts := Some ps |} |} ] |}.

(** A world with the computing JSON reader and a model that always ends
    the same way. *)
Definition world (key : option string) (reply : thrown + GenerateContentResponse) : World :=
  {| env_API_KEY := key;
     JSON_parse := JsonReader.JSON_parse;
     generateContent := fun _ _ => reply |}.

Definition post (text : string) : HandlerEvent :=
  {| httpMethod := "POST"; body := Some text |}.

Definition get_request : HandlerEvent := {| httpMethod := "GET"; body := None |}.

(** The body the Relay Client sends for the lofi style. *)
Definition lofi_body : string := request_body "QUJD" "image/png" lofi.

(** The same body with a style outside the two identifiers. *)
Definition bogus_body : string :=
  JSON_stringify [("base64ImageData", Str "QUJD"); ("mimeType", Str "image/png");
                  ("style", Str "bogus")].

(** A body without a style. *)
Definition styleless_body : string :=
  JSON_stringify [("base64ImageData", Str "QUJD"); ("mimeType", Str "image/png")].

Definition quota_error : thrown := ErrorObject "ApiError" "429 quota exceeded for key k-123".

Definition png_file : File := {| contents := ["A"%byte; "B"%byte; "C"%byte]; type := "image/png" |}.
Definition empty_file : File := {| contents := []; type := "image/png" |}.

(** A network that answers every request the same way. *)
Definition network (reply : thrown + Response) : Network :=
  {| fetch := fun _ _ _ _ => reply |}.

(** A network behind which the Relay Service itself runs, in a world
    [w]: the reply carries the handler's status and the parse of its
    body. *)
Definition relay (w : World) : Network :=
  {| fetch := fun _ method _ text =>
       match outcome (handler w {| httpMethod := method; body := Some text |}) with
       | Return r => inr {| status := statusCode r;
                            json := JsonReader.JSON_parse (response_body r) |}
       | Throw e => inl e
       end |}.

End Sample.

(** ** The loading messages of the [Loader] component *)

Module Loader.

Definition loadingMessages : list string :=
  [ "Rewinding time to the early 2000s...";
    "Applying digital camera flash...";
    "Finding the perfect Nokia ringtone...";
    "Adding a hint of pixelation...";
    "Processing with dial-up speeds...";
    "Burning a new CD mix for this photo...";
    "Adjusting color temperature...";
    "Reticulating splines..." ].

(** [Array.prototype.indexOf]: the index of the first element equal to
    [x], [-1] when there is none. *)
Fixpoint indexOf_from (i : Z) (xs : list string) (x : string) : Z :=
  match xs with
  | [] => (-1)%Z
  | y :: rest => if y =? x then i else indexOf_from (i + 1)%Z rest x
  end.

Definition indexOf (xs : list string) (x : string) : Z := indexOf_from 0%Z xs x.

(** Reading [xs[i]]: [None] is [undefined]. *)
Definition element (xs : list string) (i : Z) : option string :=
  if (i <? 0)%Z then None else nth_error xs (Z.to_nat i).

(** The updater the interval callback hands to [setMessage]; a message
    that is [undefined] is in no array. *)
Definition nextMessage (prevMessage : option string) : option string :=
  let currentIndex :=
    match prevMessage with
    | Some text => indexOf loadingMessages text
    | None => (-1)%Z
    end in
  let nextIndex := Z.rem (currentIndex + 1) (Z.of_nat (length loadingMessages)) in
  element loadingMessages nextIndex.

(** [useState(loadingMessages[0])]. *)
Definition initialMessage : option string := element loadingMessages 0%Z.

(** The message after [n] runs of the interval callback. *)
Fixpoint after_ticks (n : nat) (message : option string) : option string :=
  match n with
  | O => message
  | S k => after_ticks k (nextMessage message)
  end.

End Loader.

(** ** The application: the other handlers and what is rendered *)

Module AppUI.
Import JS Eff RelayClient App.

(** [useState] initial values. *)
Definition initial : Model :=
  {| originalImage := None;
     transformedImage := None;
     appState := idle;
     errorMessage := EmptyString;
     selectedStyle := lofi |}.

(** The state of a transformation under way: [handleTransform] has set
    [loading] and cleared the message. *)
Definition started (m : Model) : Model :=
  {| originalImage := originalImage m;
     transformedImage := transformedImage m;
     appState := loading;
     errorMessage := EmptyString;
     selectedStyle := selectedStyle m |}.

(** The state that shows the picture made of the base64 text [d]. *)
Definition displayed (m : Model) (d : string) : Model :=
  {| originalImage := originalImage m;
     transformedImage := Some ("data:image/png;base64," ++ d);
     appState := displaying;
     errorMessage := EmptyString;
     selectedStyle := selectedStyle m |}.

(** [handleFileChange], on [event.target.files?.[0]].  As in [Model], the
    object URL made for the file, which only feeds the [img] elements,
    is left out. *)
Definition handleFileChange (file : option File) (m : Model) : Model :=
  match file with
  | Some f =>
      {| originalImage := Some f;
         transformedImage := None;
         appState := idle;
         errorMessage := errorMessage m;
         selectedStyle := selectedStyle m |}
  | None => m
  end.

Definition handleReset (m : Model) : Model :=
  {| originalImage := None;
     transformedImage := None;
     appState := idle;
     errorMessage := EmptyString;
     selectedStyle := selectedStyle m |}.

(** [onStyleChange], that is [setSelectedStyle]. *)
Definition onStyleChange (style : TransformStyle) (m : Model) : Model :=
  {| originalImage := originalImage m;
     transformedImage := transformedImage m;
     appState := appState m;
     errorMessage := errorMessage m;
     selectedStyle := style |}.

(** [styleTitle]; its last [return] is out of reach of a
    [TransformStyle]. *)
Definition styleTitle (selectedStyle : TransformStyle) : string :=
  match selectedStyle with
  | lofi => "2000s Lofi"
  | cutout => "Paper Cutout"
  end.

(** [String.prototype.toLowerCase] on 8-bit code units: the letters
    [A]-[Z], and the capital letters of Latin-1. *)
Definition lower_char (c : ascii) : ascii :=
  (let n := N_of_ascii c in
   if ((65 <=? n) && (n <=? 90)) || ((192 <=? n) && (n <=? 222) && negb (n =? 215))
   then ascii_of_N (n + 32) else c)%N.

Fixpoint toLowerCase (s : string) : string :=
  match s with
  | EmptyString => EmptyString
  | String c rest => String (lower_char c) (toLowerCase rest)
  end.

(** The class [\s] on 8-bit code units. *)
Definition is_space (c : ascii) : bool :=
  (let n := N_of_ascii c in ((9 <=? n) && (n <=? 13)) || (n =? 32) || (n =? 160))%N.

(** [replace(/\s+/g, '-')]: every maximal run of white space becomes one
    hyphen.  [in_run] tells that the character before was white space. *)
Fixpoint replace_spaces (in_run : bool) (s : string) : string :=
  match s with
  | EmptyString => EmptyString
  | String c rest =>
      if is_space c then
        if in_run then replace_spaces true rest
        else String "-"%char (replace_spaces true rest)
      else String c (replace_spaces false rest)
  end.

(** A capital letter [A]-[Z]. *)
Definition is_capital (c : ascii) : bool :=
  (let n := N_of_ascii c in (65 <=? n) && (n <=? 90))%N.

(** The [fileName] of [handleDownload]. *)
Definition fileName (styleTitle : string) : string :=
  "2000s-flashback-" ++ replace_spaces false (toLowerCase styleTitle) ++ ".png".

(** What [App] renders: which component, with the props that come from
    the state. *)
Inductive Screen : Type :=
| ShowLoader
| ShowUploadSplash
| ShowResultDisplay (transformedUrl styleTitle : string)
| ShowPreviewAndTransform (isError : bool) (errorMessage : string)
    (selectedStyle : TransformStyle).

Definition is_displaying (a : AppState) : bool :=
  match a with displaying => true | _ => false end.
Definition is_error (a : AppState) : bool :=
  match a with error => true | _ => false end.
Definition is_loading (a : AppState) : bool :=
  match a with loading => true | _ => false end.

Definition render (m : Model) : Screen :=
  if is_loading (appState m) then ShowLoader
  else
    match originalImage m with
    | None => ShowUploadSplash
    | Some _ =>
        let preview :=
          ShowPreviewAndTransform (is_error (appState m)) (errorMessage m) (selectedStyle m) in
        match (if is_displaying (appState m) then transformedImage m else None) with
        | Some url =>
            if url =? EmptyString then preview
            else ShowResultDisplay url (styleTitle (selectedStyle m))
        | None => preview
        end
    end.

(** One event of the application: a file is picked (or the dialog is
    closed without one), a transformation runs to its end, the
    application is reset, a style is chosen. *)
Inductive step : Model -> Model -> Prop :=
| step_file (file : option File) (m : Model) : step m (handleFileChange file m)
| step_transform (reader : File -> ReadOutcome) (net : Network) (m : Model) :
    step m (snd (handleTransform reader net m))
| step_reset (m : Model) : step m (handleReset m)
| step_style (style : TransformStyle) (m : Model) : step m (onStyleChange style m).

Inductive reachable : Model -> Prop :=
| reachable_initial : reachable initial
| reachable_step (m m' : Model) : reachable m -> step m m' -> reachable m'.

End AppUI.

(** ** More vocabulary: what a trace holds *)

Module Observed.
Import JS GenAI Eff RelayService RelayClient.

Definition is_fetch (ev : effect) : bool :=
  match ev with FetchCall _ _ _ _ => true | _ => false end.

Definition is_console_error (ev : effect) : bool :=
  match ev with ConsoleError _ _ => true | _ => false end.

(** The one request [transformImage] sends. *)
Definition the_request (base64ImageData mimeType : string) (style : TransformStyle) : effect :=
  FetchCall "/.netlify/functions/transform-image" "POST"
    [("Content-Type", "application/json")] (request_body base64ImageData mimeType style).

(** The message the [catch] block of [transformImage] gives the error it
    raises. *)
Definition rethrown_message (e : thrown) : string :=
  match e with
  | ErrorObject _ message => message
  | NonError _ => "An unknown error occurred during image transformation."
  end.

(** The template of a style of the client. *)
Definition template_of (style : TransformStyle) : string :=
  match style with
  | lofi => LOFI_PROMPT
  | cutout => CUTOUT_PROMPT
  end.

(** The text of one member of an object with a string value, followed
    by [rest]. *)
Definition member_text (k d rest : string) : string :=
  String dq_char (quote_body k ++ String dq_char (String ":"%char
    (String dq_char (quote_body d ++ String dq_char rest)))).

(** The object the client serialises as its request body. *)
Definition request_object (base64ImageData mimeType : string) (style : TransformStyle) : value :=
  Object [("base64ImageData", Str base64ImageData); ("mimeType", Str mimeType);
          ("style", Str (style_id style))].

End Observed.

(** * Properties *)

Import JS GenAI Eff RelayService RelayClient App Spec.

(** ** Strings: [split] by its first piece and the rest *)

Lemma split_cons (sep : ascii) (s : string) :
  split sep s =
    take_until (fun c => Ascii.eqb c sep) s
      :: match after (fun c => Ascii.eqb c sep) s with
         | Some rest => split sep rest
         | None => []
         end.
Proof.
  induction s as [|c s IH]; [reflexivity|]. cbn [split take_until after].
  destruct (Ascii.eqb c sep); [reflexivity|]. now rewrite IH.
Qed.

Lemma take_until_none (stop : ascii -> bool) (s : string) :
  has_char stop s = false -> take_until stop s = s.
Proof.
  induction s as [|c s IH]; [reflexivity|]. cbn. intros H.
  apply orb_false_iff in H as [-> H]. now rewrite IH.
Qed.

Lemma after_none (stop : ascii -> bool) (s : string) :
  has_char stop s = false -> after stop s = None.
Proof.
  induction s as [|c s IH]; [reflexivity|]. cbn. intros H.
  apply orb_false_iff in H as [-> H]. now apply IH.
Qed.

(** A stop character right after [s] changes nothing to the cut of [s]. *)
Lemma take_until_app_stop (stop : ascii -> bool) (s : string) (c : ascii) (rest : string) :
  stop c = true -> take_until stop (s ++ String c rest) = take_until stop s.
Proof.
  intros Hc. induction s as [|d s IH]; cbn.
  - now rewrite Hc.
  - destruct (stop d); [reflexivity|]. now rewrite IH.
Qed.

Lemma after_app_stop (stop : ascii -> bool) (s : string) (c : ascii) (rest : string) :
  has_char stop s = false -> stop c = true -> after stop (s ++ String c rest) = Some rest.
Proof.
  intros Hs Hc. induction s as [|d s IH]; cbn in *.
  - now rewrite Hc.
  - apply orb_false_iff in Hs as [-> Hs]. now apply IH.
Qed.

Lemma take_until_twice (p q : ascii -> bool) (s : string) :
  take_until p (take_until q s) = take_until (fun c => p c || q c) s.
Proof.
  induction s as [|c s IH]; [reflexivity|]. cbn.
  destruct (q c); cbn.
  - now rewrite orb_true_r.
  - rewrite orb_false_r. destruct (p c); [reflexivity|]. now rewrite IH.
Qed.

Lemma take_until_ext (p q : ascii -> bool) (s : string) :
  (forall c, p c = q c) -> take_until p s = take_until q s.
Proof.
  intros H. induction s as [|c s IH]; [reflexivity|]. cbn. now rewrite H, IH.
Qed.

Lemma has_char_app (p : ascii -> bool) (s t : string) :
  has_char p (s ++ t) = has_char p s || has_char p t.
Proof.
  induction s as [|c s IH]; [reflexivity|]. cbn. now rewrite IH, orb_assoc.
Qed.

Lemma append_assoc (s t u : string) : (s ++ t) ++ u = s ++ t ++ u.
Proof. induction s as [|c s IH]; [reflexivity|]. cbn. now rewrite IH. Qed.

(** ** Reading back what [JSON.stringify] wrote *)

(** The reader undoes the quoting of a string, whatever follows the
    closing quote. *)
Lemma read_string_quote (s rest : string) :
  JsonReader.read_string (quote_body s ++ String dq_char rest) = Some (s, rest).
Proof.
  induction s as [|c s IH]; [reflexivity|].
  cbn [quote_body]. rewrite append_assoc.
  destruct c as [[] [] [] [] [] [] [] []]; cbn; rewrite IH; reflexivity.
Qed.

Lemma read_value_string (fuel : nat) (s rest : string) :
  JsonReader.read_value (S fuel) (String dq_char (quote_body s ++ String dq_char rest))
  = Some (Str s, rest).
Proof.
  remember (quote_body s ++ String dq_char rest) as tail eqn:Htail.
  simpl. subst tail. now rewrite read_string_quote.
Qed.

Lemma read_members_last (fuel : nat) (k d rest : string) (acc : list (string * value)) :
  JsonReader.read_members (S (S fuel))
    (String dq_char (quote_body k ++ String dq_char (String ":"%char
       (String dq_char (quote_body d ++ String dq_char (String "}"%char rest))))))
    acc
  = Some (Object (JsonReader.set_prop k (Str d) acc), rest).
Proof.
  remember (quote_body k ++ _) as tail eqn:Htail.
  cbn [JsonReader.read_members JsonReader.skip_ws].
  change (JsonReader.is_ws dq_char) with false. cbv iota.
  rewrite Ascii.eqb_refl. subst tail. rewrite read_string_quote.
  cbn [JsonReader.skip_ws]. change (JsonReader.is_ws ":"%char) with false. cbv iota.
  rewrite read_value_string.
  cbn [JsonReader.skip_ws]. change (JsonReader.is_ws "}"%char) with false. cbv iota.
  reflexivity.
Qed.

(** An object with one string property, written by [JSON.stringify] and
    read back: the property comes back as it was, whatever characters the
    string holds. *)
Lemma parse_stringify_string (k d : string) :
  JsonReader.JSON_parse (JSON_stringify [(k, Str d)]) = inr (Object [(k, Str d)]).
Proof.
  assert (JSON_stringify [(k, Str d)]
          = String "{"%char (String dq_char (quote_body k ++
              String dq_char (String ":"%char (String dq_char
                (quote_body d ++ String dq_char "}")))))) as ->.
  { unfold JSON_stringify, QuoteJSONString.
    cbn [SerializeJSONProperty flat_map snd fst app String.concat QuoteJSONString].
    unfold QuoteJSONString, dq. cbn [append].
    repeat (rewrite !append_assoc; cbn [append]). reflexivity. }
  unfold JsonReader.JSON_parse.
  remember (String dq_char _) as members eqn:Hmembers.
  cbn [String.length JsonReader.read_value JsonReader.skip_ws].
  change (JsonReader.is_ws "{"%char) with false. cbv iota.
  rewrite Ascii.eqb_refl.
  assert (JsonReader.skip_ws members = members) as -> by (subst members; reflexivity).
  assert (exists fuel, String.length members = S fuel) as [fuel ->]
    by (subst members; cbn [String.length]; eauto).
  subst members. unfold dq_char at 1. cbv iota.
  rewrite read_members_last. reflexivity.
Qed.

(** ** The monad and the handler's frame *)

Lemma method_test (event : HandlerEvent) :
  httpMethod event = "POST" -> negb (httpMethod event =? "POST") = false.
Proof. intros ->. reflexivity. Qed.

Lemma method_test_other (event : HandlerEvent) :
  httpMethod event <> "POST" -> negb (httpMethod event =? "POST") = true.
Proof. intros H. apply String.eqb_neq in H. now rewrite H. Qed.

(** A parsed body that passes the presence check is an object. *)
Lemma presence_check_object (parsed : value) :
  presence_check parsed = true -> exists props, parsed = Object props.
Proof.
  destruct parsed; try discriminate. intros _. now eexists.
Qed.

(** The [try] block on a body that parses and passes the presence check:
    one parse, one call to the model, and the model decides the rest. *)
Lemma transform_reaches_model (w : World) (key : string) (event : HandlerEvent)
    (parsed : value) :
  JSON_parse w (body_or_default event) = inr parsed ->
  presence_check parsed = true ->
  transform w key event =
    ([JsonParse (body_or_default event); ModelCall key (request_of parsed)],
     match generateContent w key (request_of parsed) with
     | inl e => Throw e
     | inr response =>
         match outcome (response_parts response) with
         | Return ps => Return (map_parts ps)
         | Throw e => Throw e
         end
     end).
Proof.
  intros Hparse Hcheck.
  destruct (presence_check_object _ Hcheck) as [props ->].
  unfold presence_check in Hcheck.
  apply andb_true_iff in Hcheck as [Hcheck Hs].
  apply andb_true_iff in Hcheck as [Hb Hm].
  unfold transform, parse, call_model. rewrite Hparse.
  cbv [bind emit of_sum ret throw destructure].
  rewrite Hb, Hm, Hs. cbn [negb orb app].
  fold (request_of (Object props)).
  destruct (generateContent w key (request_of (Object props))) as [e|response];
    [reflexivity|].
  unfold response_parts, outcome.
  destruct (candidates response) as [[|c cs]|]; try reflexivity.
  destruct (content c) as [ct|]; try reflexivity.
  destruct (parts ct) as [ps|]; reflexivity.
Qed.

(** A POST request with a credential: the environment is read, then the
    [try] block runs under the [catch]. *)
Lemma handler_with_key (w : World) (event : HandlerEvent) (key : string) :
  httpMethod event = "POST" -> env_API_KEY w = Some key -> key <> EmptyString ->
  handler w event =
    (EnvRead "API_KEY" :: trace (try_catch (transform w key event) handler_catch),
     outcome (try_catch (transform w key event) handler_catch)).
Proof.
  intros Hm Hk Hne. unfold handler, read_env.
  rewrite (method_test _ Hm), Hk.
  apply String.eqb_neq in Hne.
  cbv [bind emit ret falsy_string]. rewrite Hne.
  destruct (try_catch (transform w key event) handler_catch); reflexivity.
Qed.

(** The handler never lets an exception out: every run ends with a
    response. *)
Lemma handler_returns (w : World) (event : HandlerEvent) :
  exists r, outcome (handler w event) = Return r.
Proof.
  unfold handler. destruct (negb (httpMethod event =? "POST")); [now eexists|].
  unfold read_env. cbv [bind emit ret].
  destruct (falsy_string (env_API_KEY w)); [now eexists|].
  destruct (transform w _ event) as [t [r|e]]; now eexists.
Qed.

(** What the handler does once the body has passed the presence check. *)
Lemma handler_reaches_model (w : World) (event : HandlerEvent) (key : string)
    (parsed : value) :
  httpMethod event = "POST" -> env_API_KEY w = Some key -> key <> EmptyString ->
  JSON_parse w (body_or_default event) = inr parsed ->
  presence_check parsed = true ->
  let called := [EnvRead "API_KEY"; JsonParse (body_or_default event);
                 ModelCall key (request_of parsed)] in
  let logged e := ConsoleError "Error in transform-image function:" e in
  handler w event =
    match generateContent w key (request_of parsed) with
    | inl e => (called ++ [logged e], Return internal_error)%list
    | inr response =>
        match outcome (response_parts response) with
        | Return ps => (called, Return (map_parts ps))
        | Throw e => (called ++ [logged e], Return internal_error)%list
        end
    end.
Proof.
  intros Hm Hk Hne Hparse Hcheck called logged.
  rewrite (handler_with_key w event key Hm Hk Hne).
  rewrite (transform_reaches_model w key event parsed Hparse Hcheck).
  destruct (generateContent w key (request_of parsed)) as [e|response]; [reflexivity|].
  destruct (outcome (response_parts response)); reflexivity.
Qed.

(** A body that parses to something other than [null] and fails the
    presence check is answered at once. *)
Lemma transform_missing_fields (w : World) (key : string) (event : HandlerEvent)
    (parsed : value) :
  JSON_parse w (body_or_default event) = inr parsed ->
  parsed <> Null -> parsed <> Undefined ->
  presence_check parsed = false ->
  transform w key event = ([JsonParse (body_or_default event)], Return missing_fields).
Proof.
  intros Hparse Hnull Hundef Hcheck.
  unfold transform, parse. rewrite Hparse.
  unfold presence_check in Hcheck.
  rewrite <- negb_true_iff, !negb_andb in Hcheck.
  destruct parsed; try congruence;
    cbv [bind emit of_sum ret throw destructure]; rewrite Hcheck; reflexivity.
Qed.

Lemma handler_missing_fields (w : World) (event : HandlerEvent) (key : string)
    (parsed : value) :
  httpMethod event = "POST" -> env_API_KEY w = Some key -> key <> EmptyString ->
  JSON_parse w (body_or_default event) = inr parsed ->
  parsed <> Null -> parsed <> Undefined ->
  presence_check parsed = false ->
  handler w event =
    ([EnvRead "API_KEY"; JsonParse (body_or_default event)], Return missing_fields).
Proof.
  intros Hm Hk Hne Hparse Hnull Hundef Hcheck.
  rewrite (handler_with_key w event key Hm Hk Hne).
  now rewrite (transform_missing_fields w key event parsed Hparse Hnull Hundef Hcheck).
Qed.

(** Whatever the [try] block throws before the model is reached ends in
    the generic answer. *)
Lemma handler_parse_failure (w : World) (event : HandlerEvent) (key : string) (e : thrown) :
  httpMethod event = "POST" -> env_API_KEY w = Some key -> key <> EmptyString ->
  JSON_parse w (body_or_default event) = inl e ->
  handler w event =
    ([EnvRead "API_KEY"; JsonParse (body_or_default event);
      ConsoleError "Error in transform-image function:" e],
     Return internal_error).
Proof.
  intros Hm Hk Hne Hparse.
  rewrite (handler_with_key w event key Hm Hk Hne).
  unfold transform, parse. rewrite Hparse. reflexivity.
Qed.

Lemma prompts_differ : LOFI_PROMPT <> CUTOUT_PROMPT.
Proof.
  intros H. apply (f_equal (String.get 0)) in H. vm_compute in H. discriminate H.
Qed.

Lemma map_parts_first (pre post : list Part) (p : Part) (b : Blob) :
  Forall no_inline_data pre -> inlineData p = Some b ->
  map_parts (pre ++ p :: post) = image_response b.
Proof.
  intros Hpre Hp. induction Hpre as [|q pre Hq _ IH]; simpl.
  - now rewrite Hp.
  - unfold no_inline_data in Hq. now rewrite Hq.
Qed.

Lemma map_parts_none (ps : list Part) :
  Forall no_inline_data ps -> map_parts ps = no_image_response.
Proof.
  induction 1 as [|q ps Hq _ IH]; simpl; [reflexivity|].
  unfold no_inline_data in Hq. now rewrite Hq.
Qed.

(** The no-image answer and the generic answer differ in their body. *)
Lemma no_image_is_distinct :
  response_body no_image_response <> response_body internal_error.
Proof. vm_compute. discriminate. Qed.

Lemma map_parts_answer (ps : list Part) :
  map_parts ps = no_image_response \/ exists b, map_parts ps = image_response b.
Proof.
  induction ps as [|p ps IH]; [now left|]. cbn [map_parts].
  destruct (inlineData p) as [b|]; [right; now exists b | exact IH].
Qed.

Lemma transform_answers (w : World) (key : string) (event : HandlerEvent) (r : HandlerResponse) :
  outcome (transform w key event) = Return r ->
  r = missing_fields \/ r = no_image_response \/ exists b, r = image_response b.
Proof.
  destruct (JSON_parse w (body_or_default event)) as [e|parsed] eqn:Hparse.
  { unfold transform, parse. rewrite Hparse. discriminate. }
  destruct (presence_check parsed) eqn:Hcheck.
  - rewrite (transform_reaches_model w key event parsed Hparse Hcheck). cbn [outcome snd].
    destruct (generateContent w key (request_of parsed)) as [e|response]; [discriminate|].
    destruct (outcome (response_parts response)) as [ps|e]; [|discriminate].
    intros [= <-]. right. apply map_parts_answer.
  - destruct parsed;
      try (rewrite (transform_missing_fields w key event _ Hparse) by (congruence || exact Hcheck);
           intros [= <-]; now left);
      unfold transform, parse; rewrite Hparse; discriminate.
Qed.

(** Every run of the handler ends with one of six answers. *)
Lemma handler_answers (w : World) (event : HandlerEvent) :
  exists r,
    outcome (handler w event) = Return r
    /\ (r = method_not_allowed \/ r = configuration_error \/ r = missing_fields
        \/ r = internal_error \/ r = no_image_response \/ exists b, r = image_response b).
Proof.
  unfold handler. destruct (negb (httpMethod event =? "POST")); [eexists; split; [reflexivity|tauto]|].
  unfold read_env. cbv [bind emit ret].
  destruct (falsy_string (env_API_KEY w)); [eexists; split; [reflexivity|tauto]|].
  pose proof (transform_answers w (match env_API_KEY w with Some k => k | None => EmptyString end) event) as H.
  destruct (transform w _ event) as [t [r|e]].
  - exists r. split; [reflexivity|]. specialize (H r eq_refl). tauto.
  - exists internal_error. split; [reflexivity|tauto].
Qed.

(** ** The Relay Service *)

(** C5.  A request whose method is not POST is answered with status 405
    at once: the run has no effect at all, so the body is not parsed, the
    credential is not read and the model is not called. *)
Theorem other_methods_rejected (w : World) (event : HandlerEvent) :
  httpMethod event <> "POST" ->
  handler w event = ([], Return method_not_allowed)
  /\ statusCode method_not_allowed = 405%N
  /\ filter is_parse (trace (handler w event)) = []
  /\ filter is_env_read (trace (handler w event)) = []
  /\ model_calls (handler w event) = 0
  /\ (forall ev, ~ In ev (trace (handler w event))).
Proof.
  intros Hm. unfold handler. rewrite (method_test_other _ Hm).
  repeat split. intros ev [].
Qed.

Lemma other_methods_rejected_witness :
  handler (Sample.world (Some "k-123") (inr (Sample.respond [Sample.png_part])))
    Sample.get_request
  = ([], Return method_not_allowed).
Proof.
  apply (other_methods_rejected
           (Sample.world (Some "k-123") (inr (Sample.respond [Sample.png_part])))
           Sample.get_request).
  simpl. discriminate.
Defined.

(** C4.  Without the credential (absent, or empty) every POST request
    gets the same configuration-error answer, status 500, whatever its
    payload, and the model is not called: the run only reads the
    environment. *)
Theorem missing_credential_uniform (w : World) (e1 e2 : HandlerEvent) :
  falsy_string (env_API_KEY w) = true ->
  httpMethod e1 = "POST" -> httpMethod e2 = "POST" ->
  handler w e1 = ([EnvRead "API_KEY"], Return configuration_error)
  /\ handler w e2 = handler w e1
  /\ statusCode configuration_error = 500%N
  /\ model_calls (handler w e1) = 0 /\ model_calls (handler w e2) = 0.
Proof.
  intros Hk H1 H2.
  assert (forall e, httpMethod e = "POST" ->
                    handler w e = ([EnvRead "API_KEY"], Return configuration_error)) as Hall.
  { intros e He. unfold handler, read_env. rewrite (method_test _ He).
    cbv [bind emit ret]. now rewrite Hk. }
  rewrite (Hall e1 H1), (Hall e2 H2). repeat split.
Qed.

Lemma missing_credential_uniform_witness :
  handler (Sample.world None (inr (Sample.respond [Sample.png_part])))
    (Sample.post "not json")
  = handler (Sample.world None (inr (Sample.respond [Sample.png_part])))
      (Sample.post Sample.lofi_body).
Proof.
  apply (missing_credential_uniform
           (Sample.world None (inr (Sample.respond [Sample.png_part])))
           (Sample.post Sample.lofi_body) (Sample.post "not json"));
    reflexivity.
Defined.

(** Past the presence check the trace holds exactly one call to the
    model, whatever the model then does. *)
Lemma handler_model_calls (w : World) (event : HandlerEvent) (key : string)
    (parsed : value) :
  httpMethod event = "POST" -> env_API_KEY w = Some key -> key <> EmptyString ->
  JSON_parse w (body_or_default event) = inr parsed ->
  presence_check parsed = true ->
  filter is_model_call (trace (handler w event)) = [ModelCall key (request_of parsed)].
Proof.
  intros Hm Hk Hne Hparse Hcheck.
  rewrite (handler_reaches_model w event key parsed Hm Hk Hne Hparse Hcheck).
  destruct (generateContent w key (request_of parsed)) as [e|response]; [reflexivity|].
  destruct (outcome (response_parts response)); reflexivity.
Qed.

(** C10.  Once the presence check has passed, the handler calls the model
    exactly once, with the lofi template when the style is ['lofi'] and
    with the cutout template for every other style: the choice looks at
    nothing but the equality of the style with ['lofi']. *)
Theorem style_selects_template (w : World) (event : HandlerEvent) (key : string)
    (parsed : value) :
  httpMethod event = "POST" -> env_API_KEY w = Some key -> key <> EmptyString ->
  JSON_parse w (body_or_default event) = inr parsed ->
  presence_check parsed = true ->
  filter is_model_call (trace (handler w event)) = [ModelCall key (request_of parsed)]
  /\ model_calls (handler w event) = 1
  /\ (get parsed "style" = Str "lofi" -> instruction (request_of parsed) = [LOFI_PROMPT])
  /\ (get parsed "style" <> Str "lofi" -> instruction (request_of parsed) = [CUTOUT_PROMPT])
  /\ LOFI_PROMPT <> CUTOUT_PROMPT.
Proof.
  intros Hm Hk Hne Hparse Hcheck.
  pose proof (handler_model_calls w event key parsed Hm Hk Hne Hparse Hcheck) as Hcalls.
  split; [exact Hcalls|]. split; [unfold model_calls; now rewrite Hcalls|].
  unfold request_of, instruction, model_request, select_prompt; cbn [contents_parts flat_map app].
  split; [|split; [|exact prompts_differ]].
  - intros ->. reflexivity.
  - intros Hstyle.
    destruct (get parsed "style") as [| |b|r|s|items|props]; try reflexivity.
    cbn [strict_eq_string]. destruct (String.eqb_spec s "lofi") as [->|_]; [|reflexivity].
    now contradiction Hstyle.
Qed.

Lemma style_selects_template_witness :
  model_calls (handler (Sample.world (Some "k-123") (inr (Sample.respond [Sample.png_part])))
                 (Sample.post Sample.lofi_body)) = 1.
Proof.
  apply (style_selects_template
           (Sample.world (Some "k-123") (inr (Sample.respond [Sample.png_part])))
           (Sample.post Sample.lofi_body) "k-123"
           (Object [("base64ImageData", Str "QUJD"); ("mimeType", Str "image/png");
                    ("style", Str "lofi")]));
    solve [reflexivity | discriminate].
Defined.

(** C3.  The answer to a response of the model follows its parts in
    order: the first part that carries inline data gives status 200 with
    that part's data as [transformedBase64], which a reader of the body
    gets back as it was; when no part carries inline data the answer is
    status 500 with the no-image message, which is not the message of the
    generic failure. *)
Theorem response_mapping (w : World) (event : HandlerEvent) (key : string)
    (parsed : value) (c : Candidate) (cs : list Candidate) (ct : Content) (ps : list Part) :
  httpMethod event = "POST" -> env_API_KEY w = Some key -> key <> EmptyString ->
  JSON_parse w (body_or_default event) = inr parsed ->
  presence_check parsed = true ->
  generateContent w key (request_of parsed) = inr {| candidates := Some (c :: cs) |} ->
  content c = Some ct -> parts ct = Some ps ->
  (forall pre p b post,
      ps = (pre ++ p :: post)%list -> Forall no_inline_data pre -> inlineData p = Some b ->
      outcome (handler w event) =
        Return {| statusCode := 200;
                  headers := [("Content-Type", "application/json")];
                  response_body :=
                    JSON_stringify [("transformedBase64", optional_string (data b))] |}
      /\ forall d, data b = Some d ->
           JsonReader.JSON_parse
             (JSON_stringify [("transformedBase64", optional_string (data b))])
           = inr (Object [("transformedBase64", Str d)]))
  /\ (Forall no_inline_data ps ->
      outcome (handler w event) = Return no_image_response
      /\ statusCode no_image_response = 500%N
      /\ response_body no_image_response =
           JSON_stringify
             [("error", Str "The AI model did not return an image. Please try a different photo.")]
      /\ response_body no_image_response <> response_body internal_error).
Proof.
  intros Hm Hk Hne Hparse Hcheck Hgen Hc Hct.
  assert (outcome (handler w event) = Return (map_parts ps)) as Hout.
  { rewrite (handler_reaches_model w event key parsed Hm Hk Hne Hparse Hcheck), Hgen.
    unfold response_parts. cbn [candidates]. rewrite Hc, Hct. reflexivity. }
  rewrite Hout. split.
  - intros pre p b post -> Hpre Hp. rewrite (map_parts_first pre post p b Hpre Hp).
    split; [reflexivity|]. intros d ->. apply parse_stringify_string.
  - intros Hnone. rewrite (map_parts_none ps Hnone).
    repeat split. exact no_image_is_distinct.
Qed.

Lemma response_mapping_witness :
  outcome (handler (Sample.world (Some "k-123")
                      (inr (Sample.respond [Sample.text_part; Sample.png_part; Sample.jpeg_part])))
             (Sample.post Sample.lofi_body))
  = Return {| statusCode := 200;
              headers := [("Content-Type", "application/json")];
              response_body := JSON_stringify [("transformedBase64", Str "QUJD")] |}.
Proof.
  refine (proj1 (proj1 (response_mapping
           (Sample.world (Some "k-123")
              (inr (Sample.respond [Sample.text_part; Sample.png_part; Sample.jpeg_part])))
           (Sample.post Sample.lofi_body) "k-123"
           (Object [("base64ImageData", Str "QUJD"); ("mimeType", Str "image/png");
                    ("style", Str "lofi")])
           _ [] _ [Sample.text_part; Sample.png_part; Sample.jpeg_part]
           eq_refl eq_refl _ eq_refl eq_refl eq_refl eq_refl eq_refl)
          [Sample.text_part] Sample.png_part _ [Sample.jpeg_part] eq_refl _ eq_refl)).
  - discriminate.
  - repeat constructor.
Defined.

(** C6.  Whatever exception the call to the model raises (or the reading
    of a malformed response), the handler catches it, logs it and answers
    with the generic status-500 response: the answer is one constant, so
    it is the same for any two exceptions and carries nothing of them. *)
Theorem model_exception_is_generic (w : World) (event : HandlerEvent) (key : string)
    (parsed : value) (e : thrown) :
  httpMethod event = "POST" -> env_API_KEY w = Some key -> key <> EmptyString ->
  JSON_parse w (body_or_default event) = inr parsed ->
  presence_check parsed = true ->
  (generateContent w key (request_of parsed) = inl e
   \/ exists response, generateContent w key (request_of parsed) = inr response
                       /\ outcome (response_parts response) = Throw e) ->
  handler w event =
    ([EnvRead "API_KEY"; JsonParse (body_or_default event);
      ModelCall key (request_of parsed);
      ConsoleError "Error in transform-image function:" e],
     Return internal_error)
  /\ statusCode internal_error = 500%N
  /\ response_body internal_error =
       JSON_stringify [("error", Str "An internal error occurred while transforming the image.")].
Proof.
  intros Hm Hk Hne Hparse Hcheck Hfail.
  rewrite (handler_reaches_model w event key parsed Hm Hk Hne Hparse Hcheck).
  destruct Hfail as [-> | (response & -> & ->)]; repeat split.
Qed.

Lemma model_exception_is_generic_witness :
  outcome (handler (Sample.world (Some "k-123") (inl Sample.quota_error))
             (Sample.post Sample.lofi_body))
  = Return internal_error.
Proof.
  refine (f_equal snd (proj1 (model_exception_is_generic
           (Sample.world (Some "k-123") (inl Sample.quota_error))
           (Sample.post Sample.lofi_body) "k-123"
           (Object [("base64ImageData", Str "QUJD"); ("mimeType", Str "image/png");
                    ("style", Str "lofi")])
           Sample.quota_error eq_refl eq_refl _ eq_refl eq_refl (or_introl eq_refl)))).
  discriminate.
Defined.

(** C1, as stated, fails: a POST request whose body parses and whose
    style is ['bogus'], present and outside the two identifiers, is not
    answered with status 400.  The handler calls the model (once, with
    the cutout template) and relays its image with status 200. *)
Lemma bogus_style_reaches_model :
  let w := Sample.world (Some "k-123") (inr (Sample.respond [Sample.png_part])) in
  let event := Sample.post Sample.bogus_body in
  httpMethod event = "POST"
  /\ (exists parsed,
         JSON_parse w (body_or_default event) = inr parsed
         /\ get parsed "style" = Str "bogus"
         /\ truthy (get parsed "style") = true
         /\ supported_style (get parsed "style") = false)
  /\ outcome (handler w event) = Return (image_response {| data := Some "QUJD";
                                                            GenAI.mimeType := Some "image/png" |})
  /\ statusCode (image_response {| data := Some "QUJD";
                                   GenAI.mimeType := Some "image/png" |}) = 200%N
  /\ model_calls (handler w event) = 1
  /\ filter is_model_call (trace (handler w event))
     = [ModelCall "k-123" (model_request (Str "QUJD") (Str "image/png") CUTOUT_PROMPT)].
Proof.
  cbv zeta. split; [reflexivity|]. split.
  - eexists. split; [vm_compute; reflexivity|]. repeat split.
  - repeat split.
Qed.

(** C1, amended.  What the handler checks of the style is its presence.
    A POST request (credential present) whose body parses to a value
    other than [null] and whose style is missing or falsy is answered
    with status 400 and the message [Missing required image data or
    style.], without any call to the model.  A style that is present but
    is none of the two identifiers is not rejected: with image data and
    media type present the model is called once, with the cutout
    template. *)
Theorem style_is_checked_for_presence (w : World) (event : HandlerEvent) (key : string)
    (parsed : value) :
  httpMethod event = "POST" -> env_API_KEY w = Some key -> key <> EmptyString ->
  JSON_parse w (body_or_default event) = inr parsed ->
  parsed <> Null -> parsed <> Undefined ->
  (truthy (get parsed "style") = false ->
     outcome (handler w event) = Return missing_fields
     /\ statusCode missing_fields = 400%N
     /\ response_body missing_fields =
          JSON_stringify [("error", Str "Missing required image data or style.")]
     /\ model_calls (handler w event) = 0)
  /\ (presence_check parsed = true -> supported_style (get parsed "style") = false ->
     model_calls (handler w event) = 1
     /\ filter is_model_call (trace (handler w event))
        = [ModelCall key (model_request (get parsed "base64ImageData")
                            (get parsed "mimeType") CUTOUT_PROMPT)]).
Proof.
  intros Hm Hk Hne Hparse Hnull Hundef. split.
  - intros Hstyle.
    assert (presence_check parsed = false) as Hcheck.
    { unfold presence_check. rewrite Hstyle. apply andb_false_r. }
    rewrite (handler_missing_fields w event key parsed Hm Hk Hne Hparse Hnull Hundef Hcheck).
    repeat split.
  - intros Hcheck Hstyle.
    pose proof (handler_model_calls w event key parsed Hm Hk Hne Hparse Hcheck) as Hcalls.
    unfold model_calls. rewrite Hcalls. split; [reflexivity|].
    unfold request_of, select_prompt.
    unfold supported_style in Hstyle. apply orb_false_iff in Hstyle as [-> _].
    reflexivity.
Qed.

Lemma style_is_checked_for_presence_witness :
  outcome (handler (Sample.world (Some "k-123") (inr (Sample.respond [Sample.png_part])))
             (Sample.post Sample.styleless_body))
  = Return missing_fields.
Proof.
  refine (proj1 (proj1 (style_is_checked_for_presence
           (Sample.world (Some "k-123") (inr (Sample.respond [Sample.png_part])))
           (Sample.post Sample.styleless_body) "k-123"
           (Object [("base64ImageData", Str "QUJD"); ("mimeType", Str "image/png")])
           eq_refl eq_refl _ eq_refl _ _) eq_refl)); discriminate.
Defined.

(** C7, as stated, fails: a POST request whose body is not JSON is not
    answered with a 400-class response.  [JSON.parse] throws inside the
    [try] block and the [catch] answers with the generic status 500. *)
Lemma unparseable_body_is_server_error :
  let w := Sample.world (Some "k-123") (inr (Sample.respond [Sample.png_part])) in
  let event := Sample.post "not json" in
  httpMethod event = "POST"
  /\ (exists e, JSON_parse w (body_or_default event) = inl e)
  /\ outcome (handler w event) = Return internal_error
  /\ statusCode internal_error = 500%N
  /\ response_body internal_error =
       JSON_stringify [("error", Str "An internal error occurred while transforming the image.")].
Proof.
  cbv zeta. split; [reflexivity|]. split; [eexists; vm_compute; reflexivity|].
  repeat split.
Qed.

(** C7, amended.  For a POST request (credential present): a body that
    parses to a value other than [null] in which the image data, the media
    type or the style is missing or falsy is answered with status 400 and
    the message [Missing required image data or style.]; a body that is
    not parseable as JSON, or that is [null], is answered with the generic
    status 500.  In neither case is the model called. *)
Theorem incomplete_or_malformed_body (w : World) (event : HandlerEvent) (key : string) :
  httpMethod event = "POST" -> env_API_KEY w = Some key -> key <> EmptyString ->
  (forall parsed,
      JSON_parse w (body_or_default event) = inr parsed ->
      parsed <> Null -> parsed <> Undefined ->
      presence_check parsed = false ->
      outcome (handler w event) = Return missing_fields
      /\ statusCode missing_fields = 400%N
      /\ response_body missing_fields =
           JSON_stringify [("error", Str "Missing required image data or style.")]
      /\ model_calls (handler w event) = 0)
  /\ ((JSON_parse w (body_or_default event) = inr Null
       \/ exists e, JSON_parse w (body_or_default event) = inl e) ->
      outcome (handler w event) = Return internal_error
      /\ statusCode internal_error = 500%N
      /\ model_calls (handler w event) = 0).
Proof.
  intros Hm Hk Hne. split.
  - intros parsed Hparse Hnull Hundef Hcheck.
    rewrite (handler_missing_fields w event key parsed Hm Hk Hne Hparse Hnull Hundef Hcheck).
    repeat split.
  - intros [Hparse | [e Hparse]].
    + rewrite (handler_with_key w event key Hm Hk Hne).
      unfold transform, parse. rewrite Hparse. repeat split.
    + rewrite (handler_parse_failure w event key e Hm Hk Hne Hparse). repeat split.
Qed.

Lemma incomplete_or_malformed_body_witness :
  outcome (handler (Sample.world (Some "k-123") (inr (Sample.respond [Sample.png_part])))
             (Sample.post "{}"))
  = Return missing_fields.
Proof.
  refine (proj1 (proj1 (incomplete_or_malformed_body
           (Sample.world (Some "k-123") (inr (Sample.respond [Sample.png_part])))
           (Sample.post "{}") "k-123" eq_refl eq_refl _)
           (Object []) eq_refl _ _ eq_refl)); discriminate.
Defined.

(** ** The Relay Client *)

(** Induction on a value, through the elements of arrays. *)
Lemma value_ind_nested (P : value -> Prop) :
  P Undefined -> P Null -> (forall b, P (Bool b)) -> (forall r, P (Number r)) ->
  (forall s, P (Str s)) -> (forall items, Forall P items -> P (Array items)) ->
  (forall props, P (Object props)) ->
  forall v, P v.
Proof.
  intros Hu Hn Hb Hr Hs Ha Ho. fix IH 1.
  intros [| |b|r|s|items|props];
    [exact Hu | exact Hn | apply Hb | apply Hr | apply Hs | | apply Ho].
  apply Ha. induction items as [|x items IHitems]; constructor; [apply IH | exact IHitems].
Qed.

(** The one error [ToString] throws. *)
Lemma ToString_throws (v : value) (e : thrown) :
  ToString v = inl e -> e = TypeError "Cannot convert object to primitive value".
Proof.
  revert e. induction v as [| |b|r|s|items IH|props] using value_ind_nested;
    cbn [ToString]; try discriminate.
  - induction IH as [|x items Hx _ IHitems]; [discriminate|].
    intros e. cbn [element_texts]. fold (element_texts).
    destruct (match x with Undefined | Null => inr EmptyString | _ => ToString x end)
      as [e'|t] eqn:Hx'.
    + intros [= <-]. apply Hx. destruct x; (discriminate Hx' || exact Hx').
    + destruct (element_texts _ items) as [e''|ts]; [|discriminate].
      intros [= <-]. now apply IHitems.
  - intros e. destruct (has_own "toString" props); [now intros [= <-] | discriminate].
Qed.

(** [new Error(v)] makes an [Error], unless the conversion of [v]
    throws its [TypeError]. *)
Lemma new_Error_cases (v : value) :
  (exists message, new_Error v = inr (ErrorObject "Error" message))
  \/ new_Error v = inl (TypeError "Cannot convert object to primitive value").
Proof.
  unfold new_Error.
  destruct (ToString v) as [e|message] eqn:Hv.
  - apply ToString_throws in Hv as ->. destruct v; (left; now eexists) || (right; reflexivity).
  - left. destruct v; now eexists.
Qed.

Ltac run_client :=
  unfold transformImage, request, do_fetch, rethrow, get_prop, reply_to in *;
  cbv [bind emit of_sum ret throw try_catch outcome trace snd fst] in *.

(** Settles the [new Error(...)] of the goal: an [Error] with some
    message, or the [TypeError] of the conversion. *)
Ltac settle_new_Error :=
  match goal with
  | |- context [new_Error ?v] =>
      let message := fresh "message" in
      let H := fresh "Hnew" in
      destruct (new_Error_cases v) as [[message H]|H]; rewrite H
  end.

(** On a success response whose body is neither [null] nor [undefined],
    [transformImage] returns: the [transformedBase64] of the body when it
    is truthy, [null] otherwise. *)
Lemma transformImage_success (net : Network) (b m : string) (style : TransformStyle)
    (r : Response) (res : value) :
  reply_to net b m style = inr r -> ok r = true -> json r = inr res ->
  res <> Null -> res <> Undefined ->
  outcome (transformImage net b m style) =
    Return (if truthy (get res "transformedBase64")
            then get res "transformedBase64" else Null).
Proof.
  intros Hreply Hok Hjson Hnull Hundef. run_client.
  rewrite Hreply, Hok, Hjson. cbn [negb].
  destruct res; try congruence;
    destruct (truthy (get _ "transformedBase64")); reflexivity.
Qed.

(** [transformImage] ends in one of three ways. *)
Lemma transformImage_cases (net : Network) (b m : string) (style : TransformStyle) :
  (exists v, outcome (transformImage net b m style) = Return v /\ truthy v = true)
  \/ outcome (transformImage net b m style) = Return Null
  \/ (exists msg, outcome (transformImage net b m style) = Throw (ErrorObject "Error" msg)).
Proof.
  run_client.
  destruct (fetch net _ _ _ _) as [e|r].
  { right; right. destruct e; eexists; reflexivity. }
  destruct (ok r); cbn [negb].
  - destruct (json r) as [e|res].
    { right; right. destruct e; eexists; reflexivity. }
    destruct res; try (right; right; eexists; reflexivity);
      (destruct (truthy (get _ "transformedBase64")) eqn:Ht;
       [left; eexists; split; [reflexivity|exact Ht] | right; left; reflexivity]).
  - right; right.
    destruct (json r) as [e|res]; [eexists; reflexivity|].
    destruct res; try (eexists; reflexivity); settle_new_Error; eexists; reflexivity.
Qed.

(** The message of the error [transformImage] raises is not empty when
    the failures of the reply are worded. *)
Lemma transformImage_message (net : Network) (b m : string) (style : TransformStyle)
    (name msg : string) :
  outcome (transformImage net b m style) = Throw (ErrorObject name msg) ->
  worded_reply (reply_to net b m style) = true ->
  msg <> EmptyString.
Proof.
  unfold worded_reply. run_client.
  destruct (fetch net _ _ _ _) as [e|r].
  { destruct e as [n' m'|v]; cbn; intros [= <- <-] Hw; [|discriminate].
    now apply negb_true_iff, String.eqb_neq in Hw. }
  destruct (ok r); cbn [negb orb].
  - destruct (json r) as [e|res].
    { destruct e as [n' m'|v]; cbn; intros [= <- <-] Hw; [|discriminate].
      now apply negb_true_iff, String.eqb_neq in Hw. }
    destruct res; try (intros [= <- <-] _; discriminate);
      destruct (truthy (get _ "transformedBase64")); discriminate.
  - destruct (json r) as [e|res]; [intros [= <- <-] _; discriminate|].
    destruct res as [| |bb|rr|ss|items|props];
      try (intros [= <- <-] _; discriminate).
    cbn [get]. destruct (lookup "error" props) as [| |bb|rr|ss|items'|props'] eqn:Herr;
      cbn; try (intros [= <- <-] _; discriminate).
    + destruct bb; cbn; intros [= <- <-] Hw; discriminate.
    + destruct (negb _) eqn:Hrr; cbn; intros [= <- <-] Hw; discriminate.
    + destruct (ss =? EmptyString) eqn:Hss; cbn; intros [= <- <-] _; [discriminate|].
      now apply String.eqb_neq.
    + intros _ Hw. discriminate Hw.
    + intros _ Hw. discriminate Hw.
Qed.

(** When [transformImage] returns [null], [handleTransform] raises the
    error itself and shows its message. *)
Lemma handleTransform_null (reader : File -> ReadOutcome) (net : Network) (model : Model)
    (file : File) (payload : ImagePayload) :
  originalImage model = Some file ->
  fileToBase64 reader file = Resolved payload ->
  outcome (transformImage net (base64 payload) (App.mimeType payload) (selectedStyle model))
    = Return Null ->
  appState (snd (handleTransform reader net model)) = error
  /\ errorMessage (snd (handleTransform reader net model))
     = "The AI couldn't transform the image. Please try another one.".
Proof.
  intros Hfile Hread Hnull. unfold handleTransform. rewrite Hfile, Hread.
  destruct (transformImage net _ _ _) as [t r]. cbn in Hnull. subst r.
  split; reflexivity.
Qed.

(** Behind [Sample.relay] every reply is the handler's answer. *)
Lemma relay_reply (w : World) (b m : string) (style : TransformStyle) :
  exists r,
    outcome (handler w (Sample.post (request_body b m style))) = Return r
    /\ reply_to (Sample.relay w) b m style
       = inr {| status := statusCode r; json := JsonReader.JSON_parse (response_body r) |}
    /\ (r = method_not_allowed \/ r = configuration_error \/ r = missing_fields
        \/ r = internal_error \/ r = no_image_response \/ exists blob, r = image_response blob).
Proof.
  destruct (handler_answers w (Sample.post (request_body b m style))) as (r & Hr & Hcases).
  exists r. split; [exact Hr|]. split; [|exact Hcases].
  unfold reply_to, Sample.relay. cbn [fetch].
  fold (Sample.post (request_body b m style)). now rewrite Hr.
Qed.

(** The failures of the Relay Service are worded. *)
Lemma relay_replies_are_worded (w : World) (b m : string) (style : TransformStyle) :
  worded_reply (reply_to (Sample.relay w) b m style) = true.
Proof.
  destruct (relay_reply w b m style) as (r & _ & -> & Hcases).
  destruct Hcases as [-> | [-> | [-> | [-> | [-> | [blob ->]]]]]];
    [vm_compute; reflexivity ..|].
  unfold worded_reply, image_response. cbn [json response_body status statusCode].
  destruct (data blob) as [d|]; [|vm_compute; reflexivity].
  cbn [optional_string]. rewrite parse_stringify_string. reflexivity.
Qed.

(** Against the Relay Service a call to [transformImage] returns a
    non-empty string, returns [null], or raises an [Error] with a
    non-empty message. *)
Lemma client_against_relay (w : World) (b m : string) (style : TransformStyle) :
  (exists d, outcome (transformImage (Sample.relay w) b m style) = Return (Str d)
             /\ d <> EmptyString)
  \/ outcome (transformImage (Sample.relay w) b m style) = Return Null
  \/ (exists msg, outcome (transformImage (Sample.relay w) b m style)
                  = Throw (ErrorObject "Error" msg)
                  /\ msg <> EmptyString).
Proof.
  destruct (relay_reply w b m style) as (r & _ & Hreply & Hcases).
  unfold reply_to in Hreply. run_client. rewrite Hreply. clear Hreply.
  destruct Hcases as [-> | [-> | [-> | [-> | [-> | [blob ->]]]]]];
    [right; right; eexists; split; [vm_compute; reflexivity | discriminate] ..|].
  unfold image_response. cbn [json response_body status statusCode ok N.leb N.compare
                              Pos.compare Pos.compare_cont andb negb].
  destruct (data blob) as [d|]; [|right; left; vm_compute; reflexivity].
  cbn [optional_string]. rewrite parse_stringify_string.
  cbn [get lookup String.eqb Ascii.eqb Bool.eqb truthy].
  destruct (String.eqb_spec d EmptyString) as [->|Hd]; cbn [negb].
  - right; left. reflexivity.
  - left. exists d. split; [reflexivity|exact Hd].
Qed.

(** C2, as stated, fails: on a success response whose body carries no
    image data [transformImage] raises nothing.  It returns [null], which
    is neither an image payload nor an error. *)
Lemma transformImage_returns_null :
  let net := Sample.network (inr {| status := 200; json := inr (Object []) |}) in
  ok {| status := 200; json := inr (Object []) |} = true
  /\ get (Object []) "transformedBase64" = Undefined
  /\ transformImage net "QUJD" "image/png" lofi
     = ([FetchCall "/.netlify/functions/transform-image" "POST"
           [("Content-Type", "application/json")] (request_body "QUJD" "image/png" lofi)],
        Return Null)
  /\ truthy Null = false.
Proof. repeat split. Qed.

(** C2, amended.  A call to [transformImage] ends in exactly one of three
    ways: it returns a truthy (so non-empty) [transformedBase64], it
    returns [null], or it raises one [Error].  It returns, and does not
    raise, on every success response with a body: the body's
    [transformedBase64] when there is one, [null] when the body carries
    no image data; it is the caller, [handleTransform], that turns the
    [null] into the error [The AI couldn't transform the image. Please
    try another one.].  The message of a raised error is not empty when
    the failures of the reply are worded: the errors of the platform
    carry a message and the [error] field of a failure body is a
    string.  The replies of the Relay Service always are. *)
Theorem transformImage_outcomes (net : Network) (b m : string) (style : TransformStyle) :
  ((exists v, outcome (transformImage net b m style) = Return v /\ truthy v = true)
   \/ outcome (transformImage net b m style) = Return Null
   \/ (exists msg, outcome (transformImage net b m style) = Throw (ErrorObject "Error" msg)))
  /\ (forall r res,
        reply_to net b m style = inr r -> ok r = true -> json r = inr res ->
        res <> Null -> res <> Undefined ->
        outcome (transformImage net b m style) =
          Return (if truthy (get res "transformedBase64")
                  then get res "transformedBase64" else Null))
  /\ (forall name msg,
        outcome (transformImage net b m style) = Throw (ErrorObject name msg) ->
        worded_reply (reply_to net b m style) = true ->
        msg <> EmptyString)
  /\ (forall reader model file payload,
        originalImage model = Some file ->
        fileToBase64 reader file = Resolved payload ->
        base64 payload = b -> App.mimeType payload = m -> selectedStyle model = style ->
        outcome (transformImage net b m style) = Return Null ->
        appState (snd (handleTransform reader net model)) = error
        /\ errorMessage (snd (handleTransform reader net model))
           = "The AI couldn't transform the image. Please try another one.")
  /\ (forall w, worded_reply (reply_to (Sample.relay w) b m style) = true).
Proof.
  split; [apply transformImage_cases|].
  split; [apply transformImage_success|].
  split; [apply transformImage_message|].
  split; [|intros w; apply relay_replies_are_worded].
  intros reader model file payload Hfile Hread <- <- <- Hnull.
  now apply (handleTransform_null reader net model file payload).
Qed.

Lemma transformImage_outcomes_witness :
  appState (snd (handleTransform readAsDataURL
                   (Sample.network (inr {| status := 200; json := inr (Object []) |}))
                   {| originalImage := Some Sample.png_file;
                      transformedImage := None;
                      appState := idle;
                      errorMessage := EmptyString;
                      selectedStyle := lofi |})) = error.
Proof.
  refine (proj1 (proj1 (proj2 (proj2 (proj2 (transformImage_outcomes
            (Sample.network (inr {| status := 200; json := inr (Object []) |}))
            "QUJD" "image/png" lofi))))
          readAsDataURL
          {| originalImage := Some Sample.png_file;
             transformedImage := None;
             appState := idle;
             errorMessage := EmptyString;
             selectedStyle := lofi |}
          Sample.png_file {| base64 := "QUJD"; App.mimeType := "image/png" |}
          eq_refl eq_refl eq_refl eq_refl eq_refl eq_refl)).
Defined.

(** ** The Encoder *)

(** The [onload] callback, by the pieces of [reader.result]. *)
Lemma onload_pieces (result : string) :
  onload result =
    match after is_comma result with
    | None => Rejected (ErrorObject "Error" "Invalid file format")
    | Some rest =>
        let mimePart := take_until is_comma result in
        let base64Part := take_until is_comma rest in
        if (mimePart =? EmptyString) || (base64Part =? EmptyString)
        then Rejected (ErrorObject "Error" "Invalid file format")
        else match after is_colon mimePart with
             | None =>
                 Pending (TypeError "Cannot read properties of undefined (reading 'split')")
             | Some afterColon =>
                 Resolved {| base64 := base64Part;
                             App.mimeType :=
                               take_until is_semicolon (take_until is_colon afterColon) |}
             end
    end.
Proof.
  unfold onload. rewrite (split_cons ","%char result).
  fold is_comma. cbn [at_index nth_error falsy_string].
  destruct (after is_comma result) as [rest|].
  - rewrite (split_cons ","%char rest). fold is_comma. cbn [nth_error falsy_string].
    cbv zeta.
    destruct ((take_until is_comma result =? EmptyString)
              || (take_until is_comma rest =? EmptyString)); [reflexivity|].
    rewrite (split_cons ":"%char (take_until is_comma result)). fold is_colon.
    cbn [nth_error].
    destruct (after is_colon (take_until is_comma result)) as [afterColon|];
      [|reflexivity].
    rewrite (split_cons ":"%char afterColon). fold is_colon. cbn [nth_error].
    rewrite (split_cons ";"%char (take_until is_colon afterColon)). fold is_semicolon.
    reflexivity.
  - cbn [nth_error falsy_string]. now rewrite orb_true_r.
Qed.

(** The Encoder on a data URL with declared type [t] and payload [p]. *)
Lemma onload_data_url (t p : string) :
  onload ("data:" ++ t ++ ";base64," ++ p) =
    match after is_comma (t ++ ";base64," ++ p) with
    | None => Rejected (ErrorObject "Error" "Invalid file format")
    | Some rest =>
        if take_until is_comma rest =? EmptyString
        then Rejected (ErrorObject "Error" "Invalid file format")
        else Resolved {| base64 := take_until is_comma rest;
                         App.mimeType := take_until is_separator t |}
    end.
Proof.
  rewrite onload_pieces.
  assert (t ++ ";base64," ++ p = (t ++ ";base64") ++ String ","%char p) as Hurl
    by (rewrite append_assoc; reflexivity).
  set (url := t ++ ";base64," ++ p) in *.
  change (after is_comma ("data:" ++ url)) with (after is_comma url).
  destruct (after is_comma url) as [rest|]; [|reflexivity].
  change (take_until is_comma ("data:" ++ url)) with ("data:" ++ take_until is_comma url).
  cbv zeta. cbn [append String.eqb orb after is_colon Ascii.eqb Bool.eqb].
  destruct (take_until is_comma rest =? EmptyString); [reflexivity|].
  do 2 f_equal. rewrite Hurl.
  rewrite (take_until_app_stop is_comma) by reflexivity.
  rewrite !take_until_twice.
  rewrite (take_until_ext _ is_separator)
    by (intros c; reflexivity).
  now rewrite (take_until_app_stop is_separator t ";"%char "base64").
Qed.

(** ** Base64: decoding undoes encoding *)

Ltac Zify.zify_post_hook ::= Z.to_euclidean_division_equations.

Lemma list_ind3 {A : Type} (P : list A -> Prop) :
  P [] -> (forall a, P [a]) -> (forall a b, P [a; b]) ->
  (forall a b c rest, P rest -> P (a :: b :: c :: rest)) ->
  forall l, P l.
Proof.
  intros H0 H1 H2 H3. fix IH 1.
  intros [|a [|b [|c rest]]]; [exact H0 | apply H1 | apply H2 | apply H3, IH].
Qed.

Ltac split_comparisons :=
  repeat match goal with
         | |- context [N.leb ?a ?b] => destruct (N.leb_spec a b)
         | |- context [N.ltb ?a ?b] => destruct (N.ltb_spec a b)
         | |- context [N.eqb ?a ?b] => destruct (N.eqb_spec a b)
         end; cbn [andb orb negb].

(** The code of the character of a 6-bit group. *)
Lemma digit_code (n : N) :
  (N_of_ascii (Base64.digit n) =
     if n <? 26 then 65 + n
     else if n <? 52 then 71 + n
     else if n <? 62 then n - 4
     else if n =? 62 then 43 else 47)%N.
Proof.
  unfold Base64.digit. split_comparisons; try reflexivity;
    apply N_ascii_embedding; lia.
Qed.

Lemma sextet_digit (n : N) : (n < 64)%N -> Base64.sextet (Base64.digit n) = Some n.
Proof.
  intros Hn. unfold Base64.sextet. rewrite digit_code. cbv zeta.
  split_comparisons; try lia; f_equal; lia.
Qed.

Lemma digit_is_no_comma (n : N) : is_comma (Base64.digit n) = false.
Proof.
  unfold is_comma. apply Ascii.eqb_neq. intros H.
  apply (f_equal N_of_ascii) in H. rewrite digit_code in H.
  change (N_of_ascii ","%char) with 44%N in H.
  revert H. split_comparisons; lia.
Qed.

Lemma encode_has_no_comma (bs : list byte) : has_char is_comma (Base64.encode bs) = false.
Proof.
  induction bs as [|a|a b|a b c rest IH] using list_ind3;
    cbn [Base64.encode has_char]; rewrite ?digit_is_no_comma, ?IH; reflexivity.
Qed.

Lemma encode_is_not_empty (bs : list byte) : bs <> [] -> Base64.encode bs <> EmptyString.
Proof. destruct bs as [|a [|b [|c rest]]]; [congruence | discriminate ..]. Qed.

(** The three bytes of a full group come back. *)
Lemma group_bytes_encode (a b c : byte) (k : nat) :
  let A := Byte.to_N a in
  let B := Byte.to_N b in
  let C := Byte.to_N c in
  Base64.group_bytes (A / 4) ((A mod 4) * 16 + B / 16) ((B mod 16) * 4 + C / 64) (C mod 64) k
  = Some (firstn k [a; b; c]).
Proof.
  intros A B C. unfold Base64.group_bytes.
  pose proof (Byte.to_N_bounded a). pose proof (Byte.to_N_bounded b).
  pose proof (Byte.to_N_bounded c). fold A B C in H, H0, H1.
  replace (A / 4 * 4 + (A mod 4 * 16 + B / 16) / 16)%N with A by lia.
  replace ((A mod 4 * 16 + B / 16) mod 16 * 16 + (B mod 16 * 4 + C / 64) / 4)%N with B by lia.
  replace ((B mod 16 * 4 + C / 64) mod 4 * 64 + C mod 64)%N with C by lia.
  unfold A, B, C. now rewrite !Byte.of_to_N.
Qed.

Lemma decode_encode (bs : list byte) : Base64.decode (Base64.encode bs) = Some bs.
Proof.
  induction bs as [|a|a b|a b c rest IH] using list_ind3.
  - reflexivity.
  - pose proof (Byte.to_N_bounded a).
    cbn [Base64.encode Base64.decode]. cbv zeta.
    rewrite !sextet_digit by lia.
    change (Base64.sextet Base64.pad) with (@None N). cbn.
    pose proof (group_bytes_encode a "000"%byte "000"%byte 1) as Hg. cbv zeta in Hg.
    change (Byte.to_N "000"%byte) with 0%N in Hg. cbn [firstn] in Hg.
    replace (Byte.to_N a mod 4 * 16 + 0 / 16)%N with (Byte.to_N a mod 4 * 16)%N in Hg by lia.
    exact Hg.
  - pose proof (Byte.to_N_bounded a). pose proof (Byte.to_N_bounded b).
    cbn [Base64.encode Base64.decode]. cbv zeta.
    rewrite !sextet_digit by lia.
    change (Base64.sextet Base64.pad) with (@None N). cbn.
    pose proof (group_bytes_encode a b "000"%byte 2) as Hg. cbv zeta in Hg.
    change (Byte.to_N "000"%byte) with 0%N in Hg. cbn [firstn] in Hg.
    replace (Byte.to_N b mod 16 * 4 + 0 / 64)%N with (Byte.to_N b mod 16 * 4)%N in Hg by lia.
    exact Hg.
  - pose proof (Byte.to_N_bounded a). pose proof (Byte.to_N_bounded b).
    pose proof (Byte.to_N_bounded c).
    cbn [Base64.encode Base64.decode]. cbv zeta.
    rewrite !sextet_digit by lia.
    pose proof (group_bytes_encode a b c 3) as Hg. cbv zeta in Hg.
    rewrite Hg, IH. reflexivity.
Qed.

(** A reader result without a comma is rejected. *)
Lemma onload_without_separator (result : string) :
  has_char is_comma result = false ->
  onload result = Rejected (ErrorObject "Error" "Invalid file format").
Proof.
  intros H. rewrite onload_pieces. now rewrite (after_none is_comma result H).
Qed.

(** The written type has a comma only when the declared type has one. *)
Lemma written_type_has_no_comma (file : File) :
  has_char is_comma (type file) = false -> has_char is_comma (written_type file) = false.
Proof.
  unfold written_type. destruct (type file =? EmptyString); [reflexivity | trivial].
Qed.

(** A cut that takes the whole text met no stop character. *)
Lemma take_until_all (stop : ascii -> bool) (s : string) :
  take_until stop s = s -> has_char stop s = false.
Proof.
  induction s as [|c s IH]; [reflexivity|]. cbn.
  destruct (stop c); [discriminate|]. intros [= H]. now apply IH.
Qed.

(** The Encoder on a file whose declared type has no comma. *)
Lemma fileToBase64_plain_type (file : File) :
  has_char is_comma (type file) = false ->
  fileToBase64 readAsDataURL file =
    if Base64.encode (contents file) =? EmptyString
    then Rejected (ErrorObject "Error" "Invalid file format")
    else Resolved {| base64 := Base64.encode (contents file);
                     App.mimeType := take_until is_separator (written_type file) |}.
Proof.
  intros Htype. apply written_type_has_no_comma in Htype.
  unfold fileToBase64, readAsDataURL. rewrite onload_data_url.
  assert (written_type file ++ ";base64," ++ Base64.encode (contents file)
          = (written_type file ++ ";base64")
              ++ String ","%char (Base64.encode (contents file))) as ->
    by (rewrite append_assoc; reflexivity).
  rewrite (after_app_stop is_comma)
    by (reflexivity || (rewrite has_char_app, Htype; reflexivity)).
  now rewrite (take_until_none is_comma) by apply encode_has_no_comma.
Qed.

(** On a file that is read the promise settles, and with a declared
    type without comma it rejects exactly for the empty file. *)
Lemma fileToBase64_settles (file : File) :
  ((exists payload, fileToBase64 readAsDataURL file = Resolved payload)
   \/ fileToBase64 readAsDataURL file = Rejected (ErrorObject "Error" "Invalid file format"))
  /\ (has_char is_comma (type file) = false ->
      (fileToBase64 readAsDataURL file = Rejected (ErrorObject "Error" "Invalid file format")
       <-> contents file = [])).
Proof.
  split.
  - unfold fileToBase64, readAsDataURL. rewrite onload_data_url.
    destruct (after is_comma _) as [rest|]; [|now right].
    destruct (take_until is_comma rest =? EmptyString); [now right | left; now eexists].
  - intros Htype. rewrite (fileToBase64_plain_type file Htype).
    destruct (contents file) as [|a bs] eqn:Hc.
    + split; reflexivity.
    + assert (Base64.encode (a :: bs) <> EmptyString) as Hne
        by (apply encode_is_not_empty; discriminate).
      apply String.eqb_neq in Hne. rewrite Hne. split; discriminate.
Qed.

(** The Encoder on a file that is read: the media type is the text of
    the written type up to its first separator. *)
Lemma fileToBase64_resolved (file : File) (payload : ImagePayload) :
  fileToBase64 readAsDataURL file = Resolved payload ->
  App.mimeType payload = take_until is_separator (written_type file).
Proof.
  unfold fileToBase64, readAsDataURL. rewrite onload_data_url.
  destruct (after is_comma _) as [rest|]; [|discriminate].
  destruct (take_until is_comma rest =? EmptyString); [discriminate|].
  now intros [= <-].
Qed.

(** The media type is the declared type exactly when one is declared
    and it has no separator. *)
Lemma media_type_verbatim (file : File) :
  take_until is_separator (written_type file) = type file
  <-> type file <> EmptyString /\ has_char is_separator (type file) = false.
Proof.
  unfold written_type. destruct (String.eqb_spec (type file) EmptyString) as [Hempty|Hdeclared].
  - rewrite Hempty. split; [discriminate | intros [H _]; now contradiction H].
  - split.
    + intros H. split; [exact Hdeclared | now apply take_until_all].
    + intros [_ H]. now apply take_until_none.
Qed.

(** C8, as stated, fails in its second half: on success the media type
    is not always the declared type.  A declared type with a parameter is
    cut at its first semicolon, and for a file that declares no type
    (the platform knows none for it) the media type is the
    [application/octet-stream] that [readAsDataURL] writes in its
    place. *)
Lemma media_type_is_not_always_verbatim :
  let tagged := {| contents := ["A"%byte; "B"%byte; "C"%byte];
                   type := "image/svg+xml;charset=utf-8" |} in
  let untyped := {| contents := ["A"%byte; "B"%byte; "C"%byte]; type := EmptyString |} in
  readAsDataURL tagged = Load "data:image/svg+xml;charset=utf-8;base64,QUJD"
  /\ fileToBase64 readAsDataURL tagged
     = Resolved {| base64 := "QUJD"; App.mimeType := "image/svg+xml" |}
  /\ "image/svg+xml" <> type tagged
  /\ readAsDataURL untyped = Load "data:application/octet-stream;base64,QUJD"
  /\ fileToBase64 readAsDataURL untyped
     = Resolved {| base64 := "QUJD"; App.mimeType := "application/octet-stream" |}
  /\ "application/octet-stream" <> type untyped.
Proof. cbv zeta. repeat split; discriminate. Qed.

(** C8, amended.  When the read fails, or when the reader's result has
    no comma between its header and its payload, [fileToBase64] rejects
    and no payload is produced; whatever a [FileReader] ends with, the
    promise settles.  A file that is read, not empty, with a declared
    type without comma, resolves with the base64 text of its bytes and a
    media type.  The media type of a resolved payload is the text of the
    written type up to its first [;], [:] or [,]: it is the declared type
    itself exactly when a type is declared and has none of these
    characters (as [image/png], [image/jpeg] and [image/webp]). *)
Theorem encoder_failures_and_media_type (reader : File -> ReadOutcome) (file : File) :
  (forall event,
      reader file = ReadError event ->
      fileToBase64 reader file = Rejected (NonError event)
      /\ forall payload, fileToBase64 reader file <> Resolved payload)
  /\ (forall result,
      reader file = Load result -> has_char is_comma result = false ->
      fileToBase64 reader file = Rejected (ErrorObject "Error" "Invalid file format")
      /\ forall payload, fileToBase64 reader file <> Resolved payload)
  /\ (reads file (reader file) ->
      (exists payload, fileToBase64 reader file = Resolved payload)
      \/ (exists reason, fileToBase64 reader file = Rejected reason))
  /\ (contents file <> [] -> has_char is_comma (type file) = false ->
      fileToBase64 readAsDataURL file
      = Resolved {| base64 := Base64.encode (contents file);
                    App.mimeType := take_until is_separator (written_type file) |})
  /\ (forall payload,
      fileToBase64 readAsDataURL file = Resolved payload ->
      App.mimeType payload = take_until is_separator (written_type file)
      /\ (App.mimeType payload = type file
          <-> type file <> EmptyString /\ has_char is_separator (type file) = false)).
Proof.
  split; [|split; [|split; [|split]]].
  - intros event Hread. unfold fileToBase64. rewrite Hread. split; [reflexivity|discriminate].
  - intros result Hread Hsep. unfold fileToBase64. rewrite Hread.
    rewrite (onload_without_separator result Hsep). split; [reflexivity|discriminate].
  - intros Hreads. inversion Hreads as [Hload | event Herror].
    + change (fileToBase64 reader file) with
        (match reader file with
         | Load result => onload result
         | ReadError event => Rejected (NonError event)
         end).
      rewrite <- Hload.
      destruct (proj1 (fileToBase64_settles file)) as [Hres | Hrej];
        [left; exact Hres | right; eexists; exact Hrej].
    + right. exists (NonError event). unfold fileToBase64. now rewrite <- Herror.
  - intros Hbytes Htype. rewrite (fileToBase64_plain_type file Htype).
    apply encode_is_not_empty, String.eqb_neq in Hbytes. now rewrite Hbytes.
  - intros payload Hres. rewrite (fileToBase64_resolved file payload Hres).
    split; [reflexivity | apply media_type_verbatim].
Qed.

Lemma encoder_failures_and_media_type_witness :
  fileToBase64 readAsDataURL Sample.png_file
  = Resolved {| base64 := Base64.encode (contents Sample.png_file);
                App.mimeType := take_until is_separator (written_type Sample.png_file) |}.
Proof.
  refine (proj1 (proj2 (proj2 (proj2
            (encoder_failures_and_media_type readAsDataURL Sample.png_file)))) _ eq_refl).
  discriminate.
Defined.

(** C9, as stated, fails on the empty blob: the Encoder has no encoding
    for it.  The data URL ends at its comma, the payload is the empty
    string, and [fileToBase64] rejects. *)
Lemma empty_blob_is_rejected :
  contents Sample.empty_file = []
  /\ readAsDataURL Sample.empty_file = Load "data:image/png;base64,"
  /\ fileToBase64 readAsDataURL Sample.empty_file
     = Rejected (ErrorObject "Error" "Invalid file format")
  /\ forall payload, fileToBase64 readAsDataURL Sample.empty_file <> Resolved payload.
Proof. repeat split. discriminate. Qed.

(** C9, amended.  For every blob that is not empty (and whose declared
    type has no comma) the Encoder resolves, its payload is the base64
    text of the blob, and decoding the payload gives back the bytes of the
    blob exactly. *)
Theorem encoder_round_trip (file : File) :
  contents file <> [] -> has_char is_comma (type file) = false ->
  exists payload,
    fileToBase64 readAsDataURL file = Resolved payload
    /\ base64 payload = Base64.encode (contents file)
    /\ Base64.decode (base64 payload) = Some (contents file).
Proof.
  intros Hne Htype.
  exists {| base64 := Base64.encode (contents file);
            App.mimeType := take_until is_separator (written_type file) |}.
  split; [|split; [reflexivity|apply decode_encode]].
  rewrite (fileToBase64_plain_type file Htype).
  apply encode_is_not_empty, String.eqb_neq in Hne. now rewrite Hne.
Qed.

Lemma encoder_round_trip_witness :
  exists payload,
    fileToBase64 readAsDataURL Sample.png_file = Resolved payload
    /\ base64 payload = Base64.encode (contents Sample.png_file)
    /\ Base64.decode (base64 payload) = Some (contents Sample.png_file).
Proof.
  apply (encoder_round_trip Sample.png_file); [discriminate | reflexivity].
Defined.

(** ** End to end: the client against the service *)

(** Scenario A: the lofi style, a credential, a model that returns one
    part with inline data. *)
Example scenario_lofi :
  outcome (transformImage
             (Sample.relay (Sample.world (Some "k-123") (inr (Sample.respond [Sample.png_part]))))
             "QUJD" "image/png" lofi)
  = Return (Str "QUJD").
Proof. vm_compute. reflexivity. Qed.

(** Scenario C: the model returns no part with inline data. *)
Example scenario_no_image :
  outcome (transformImage
             (Sample.relay (Sample.world (Some "k-123") (inr (Sample.respond [Sample.text_part]))))
             "QUJD" "image/png" cutout)
  = Throw (ErrorObject "Error"
             "The AI model did not return an image. Please try a different photo.").
Proof. vm_compute. reflexivity. Qed.

(** The credential is missing: the client raises the configuration
    error. *)
Example scenario_no_credential :
  outcome (transformImage
             (Sample.relay (Sample.world None (inr (Sample.respond [Sample.png_part]))))
             "QUJD" "image/png" lofi)
  = Throw (ErrorObject "Error" "Server configuration error: API key is not set up.").
Proof. vm_compute. reflexivity. Qed.

(** The model fails: the client raises the generic message, and nothing
    of the exception. *)
Example scenario_model_failure :
  outcome (transformImage
             (Sample.relay (Sample.world (Some "k-123") (inl Sample.quota_error)))
             "QUJD" "image/png" lofi)
  = Throw (ErrorObject "Error" "An internal error occurred while transforming the image.").
Proof. vm_compute. reflexivity. Qed.

(** The whole application on a picked file. *)
Example scenario_application :
  snd (handleTransform readAsDataURL
         (Sample.relay (Sample.world (Some "k-123") (inr (Sample.respond [Sample.png_part]))))
         {| originalImage := Some Sample.png_file;
            transformedImage := None;
            appState := idle;
            errorMessage := EmptyString;
            selectedStyle := cutout |})
  = {| originalImage := Some Sample.png_file;
       transformedImage := Some "data:image/png;base64,QUJD";
       appState := displaying;
       errorMessage := EmptyString;
       selectedStyle := cutout |}.
Proof. vm_compute. reflexivity. Qed.

(** A declared type with parameters: the media type is its text up to
    the first semicolon.  A declared type with a comma: the payload is
    cut out of the header. *)
Example declared_type_with_parameters :
  fileToBase64 readAsDataURL
    {| contents := ["A"%byte; "B"%byte; "C"%byte]; type := "image/svg+xml;charset=utf-8" |}
  = Resolved {| base64 := "QUJD"; App.mimeType := "image/svg+xml" |}.
Proof. vm_compute. reflexivity. Qed.

Example declared_type_with_comma :
  fileToBase64 readAsDataURL {| contents := ["A"%byte; "B"%byte; "C"%byte]; type := "a,b" |}
  = Resolved {| base64 := "b;base64"; App.mimeType := "a" |}.
Proof. vm_compute. reflexivity. Qed.

(** A reader result with a comma but no colon in its header: the callback
    throws, and the promise neither resolves nor rejects.
    [readAsDataURL] never gives such a result. *)
Example header_without_colon :
  onload "abc,def"
  = Pending (TypeError "Cannot read properties of undefined (reading 'split')").
Proof. reflexivity. Qed.

(** The reader on number literals: the nearest double, printed with
    its shortest digits; the grammar has no leading zero, no bare point
    and no bare exponent. *)
Example reader_reads_numbers :
  map JsonReader.JSON_parse
    ["1.5"; "-0"; "1e21"; "12345678901234567890"; "0.1e-6"; "-1E400"; "01"; "1."; "2e"]
  = [inr (Number "1.5"); inr (Number "0"); inr (Number "1e+21");
     inr (Number "12345678901234567000"); inr (Number "1e-7"); inr (Number "-Infinity");
     inl (ErrorObject "SyntaxError" "Unexpected non-whitespace character after JSON");
     inl (ErrorObject "SyntaxError" "Unexpected token in JSON");
     inl (ErrorObject "SyntaxError" "Unexpected token in JSON")].
Proof. vm_compute. reflexivity. Qed.

(** A style that is a number passes the presence check like any truthy
    value, and gets the cutout template. *)
Example numeric_style_reaches_model :
  let text := "{" ++ dq ++ "base64ImageData" ++ dq ++ ":" ++ dq ++ "QUJD" ++ dq ++ ","
              ++ dq ++ "mimeType" ++ dq ++ ":" ++ dq ++ "image/png" ++ dq ++ ","
              ++ dq ++ "style" ++ dq ++ ":1.5}" in
  handler (Sample.world (Some "k-123") (inr (Sample.respond [Sample.png_part])))
    (Sample.post text)
  = ([EnvRead "API_KEY"; JsonParse text;
      ModelCall "k-123" (model_request (Str "QUJD") (Str "image/png") CUTOUT_PROMPT)],
     Return (image_response {| data := Some "QUJD"; GenAI.mimeType := Some "image/png" |})).
Proof. vm_compute. reflexivity. Qed.

(** An [error] field that is an object: [new Error] converts it, and
    an own [toString] makes the conversion throw; the client raises the
    message of that [TypeError]. *)
Example object_as_error_message :
  let failure (error : value) :=
    Sample.network (inr {| status := 500; json := inr (Object [("error", error)]) |}) in
  outcome (transformImage (failure (Object [("code", Number "7")])) "QUJD" "image/png" lofi)
  = Throw (ErrorObject "Error" "[object Object]")
  /\ outcome (transformImage (failure (Object [("toString", Number "7")]))
                "QUJD" "image/png" lofi)
     = Throw (ErrorObject "Error" "Cannot convert object to primitive value")
  /\ outcome (transformImage (failure (Array [Number "1"; Null; Str "a"]))
                "QUJD" "image/png" lofi)
     = Throw (ErrorObject "Error" "1,,a").
Proof. repeat split. Qed.

(** * Further properties *)

Import Loader AppUI Observed.

(** ** The Relay Service, run by run *)

(** The six ways a run of the handler goes, each with the conditions
    that lead to it. *)
Lemma handler_runs (w : World) (event : HandlerEvent) :
  let text := body_or_default event in
  let logged e := ConsoleError "Error in transform-image function:" e in
  (httpMethod event <> "POST" /\ handler w event = ([], Return method_not_allowed))
  \/ (httpMethod event = "POST" /\ falsy_string (env_API_KEY w) = true
      /\ handler w event = ([EnvRead "API_KEY"], Return configuration_error))
  \/ (httpMethod event = "POST" /\ falsy_string (env_API_KEY w) = false
      /\ ((exists e, JSON_parse w text = inl e)
          \/ JSON_parse w text = inr Null \/ JSON_parse w text = inr Undefined)
      /\ exists e, handler w event
                   = ([EnvRead "API_KEY"; JsonParse text; logged e], Return internal_error))
  \/ (httpMethod event = "POST" /\ falsy_string (env_API_KEY w) = false
      /\ (exists parsed, JSON_parse w text = inr parsed /\ presence_check parsed = false)
      /\ handler w event = ([EnvRead "API_KEY"; JsonParse text], Return missing_fields))
  \/ (exists key parsed,
         httpMethod event = "POST" /\ env_API_KEY w = Some key /\ key <> EmptyString
         /\ JSON_parse w text = inr parsed /\ presence_check parsed = true
         /\ ((exists e, handler w event
                        = ([EnvRead "API_KEY"; JsonParse text;
                            ModelCall key (request_of parsed); logged e],
                           Return internal_error))
             \/ (exists ps, handler w event
                            = ([EnvRead "API_KEY"; JsonParse text;
                                ModelCall key (request_of parsed)],
                               Return (map_parts ps))))).
Proof.
  cbv zeta.
  destruct (String.eqb_spec (httpMethod event) "POST") as [Hm|Hm].
  2:{ left. split; [exact Hm|]. unfold handler. now rewrite (method_test_other _ Hm). }
  right. destruct (falsy_string (env_API_KEY w)) eqn:Hfalsy.
  { left. repeat split; try assumption.
    unfold handler, read_env. rewrite (method_test _ Hm).
    cbv [bind emit ret]. now rewrite Hfalsy. }
  right.
  assert (exists key, env_API_KEY w = Some key /\ key <> EmptyString) as (key & Hk & Hne).
  { destruct (env_API_KEY w) as [key|]; [|discriminate]. exists key. split; [reflexivity|].
    now apply String.eqb_neq. }
  destruct (JSON_parse w (body_or_default event)) as [e|parsed] eqn:Hparse.
  { left. repeat split; try assumption; [left; now exists e|]. exists e.
    exact (handler_parse_failure w event key e Hm Hk Hne Hparse). }
  destruct (presence_check parsed) eqn:Hcheck.
  - right; right. exists key, parsed. repeat split; try assumption.
    rewrite (handler_reaches_model w event key parsed Hm Hk Hne Hparse Hcheck).
    destruct (generateContent w key (request_of parsed)) as [e|response];
      [left; now exists e|].
    destruct (outcome (response_parts response)) as [ps|e];
      [right; now exists ps | left; now exists e].
  - assert (parsed = Null \/ parsed = Undefined \/ (parsed <> Null /\ parsed <> Undefined))
      as [-> | [-> | [Hnull Hundef]]]
      by (destruct parsed; auto; right; right; split; discriminate).
    + left. repeat split; try assumption; [right; now left|].
      rewrite (handler_with_key w event key Hm Hk Hne).
      unfold transform, parse. rewrite Hparse. eexists. reflexivity.
    + left. repeat split; try assumption; [right; now right|].
      rewrite (handler_with_key w event key Hm Hk Hne).
      unfold transform, parse. rewrite Hparse. eexists. reflexivity.
    + right; left. repeat split; try assumption; [exists parsed; now split|].
      exact (handler_missing_fields w event key parsed Hm Hk Hne Hparse Hnull Hundef Hcheck).
Qed.

Lemma image_response_status (b : Blob) :
  statusCode (image_response b) = 200%N
  /\ headers (image_response b) = [("Content-Type", "application/json")].
Proof. split; reflexivity. Qed.

Lemma answers_differ_from_internal_error (r : HandlerResponse) :
  r = method_not_allowed \/ r = configuration_error \/ r = missing_fields
  \/ r = no_image_response \/ (exists b, r = image_response b) ->
  r <> internal_error.
Proof.
  intros [-> | [-> | [-> | [-> | [b ->]]]]] H;
    [apply (f_equal response_body) in H; vm_compute in H; discriminate H ..|].
  apply (f_equal statusCode) in H. discriminate H.
Qed.

Lemma map_parts_is_not_internal_error (ps : list Part) : map_parts ps <> internal_error.
Proof.
  apply answers_differ_from_internal_error.
  destruct (map_parts_answer ps) as [-> | [b ->]]; [tauto | right; right; right; right; eauto].
Qed.

(** X1.  The handler never lets an exception out: every run ends with a
    response.  Its status is 200, 400, 405 or 500.  A 200 comes only
    after a call to the model and is the only answer with a
    [Content-Type] header; every other answer but the 405 has a JSON body
    with one non-empty [error] message. *)
Theorem handler_always_answers (w : World) (event : HandlerEvent) :
  exists r,
    outcome (handler w event) = Return r
    /\ (statusCode r = 200 \/ statusCode r = 400 \/ statusCode r = 405 \/ statusCode r = 500)%N
    /\ (statusCode r = 200%N ->
        model_calls (handler w event) = 1
        /\ headers r = [("Content-Type", "application/json")])
    /\ (statusCode r <> 200%N ->
        headers r = []
        /\ (r = method_not_allowed
            \/ exists message, message <> EmptyString
                 /\ response_body r = JSON_stringify [("error", Str message)])).
Proof.
  pose proof (handler_runs w event) as H. cbv zeta in H.
  destruct H as [[_ ->] | [(_ & _ & ->) | [(_ & _ & _ & e & ->) | [(_ & _ & _ & ->) | H]]]].
  - exists method_not_allowed. repeat split; try tauto; try discriminate.
  - exists configuration_error. repeat split; try tauto; try discriminate.
    right. eexists. split; [|reflexivity]. discriminate.
  - exists internal_error. repeat split; try tauto; try discriminate.
    right. eexists. split; [|reflexivity]. discriminate.
  - exists missing_fields. repeat split; try tauto; try discriminate.
    right. eexists. split; [|reflexivity]. discriminate.
  - destruct H as (key & parsed & _ & _ & _ & _ & _ & [[e ->] | [ps ->]]).
    + exists internal_error. repeat split; try tauto; try discriminate.
      right. eexists. split; [|reflexivity]. discriminate.
    + exists (map_parts ps). split; [reflexivity|].
      destruct (map_parts_answer ps) as [-> | [b ->]].
      * repeat split; try tauto; try discriminate.
        right. eexists. split; [|reflexivity]. discriminate.
      * repeat split; tauto.
Qed.

(** X2.  The model is called at most once in a run, and it is called
    exactly when the four gates are passed: the method is POST, the
    credential is set, the body parses, and image data, media type and
    style are all truthy. *)
Theorem model_called_iff (w : World) (event : HandlerEvent) :
  model_calls (handler w event) <= 1
  /\ (model_calls (handler w event) = 1
      <-> httpMethod event = "POST"
          /\ falsy_string (env_API_KEY w) = false
          /\ exists parsed, JSON_parse w (body_or_default event) = inr parsed
                            /\ presence_check parsed = true).
Proof.
  pose proof (handler_runs w event) as H. cbv zeta in H.
  destruct H as [[Hm ->] | [(Hm & Hk & ->) | [(Hm & Hk & Hp & e & ->) | [(Hm & Hk & Hp & ->) | H]]]].
  - split; [cbn; lia|]. split; [discriminate|]. intros [Hm' _]. contradiction.
  - split; [cbn; lia|]. split; [discriminate|]. intros (_ & Hk' & _). congruence.
  - split; [cbn; lia|]. split; [discriminate|]. intros (_ & _ & parsed & Hparse & Hcheck).
    destruct Hp as [[e' He'] | [Hn | Hu]]; rewrite Hparse in *.
    + discriminate.
    + injection Hn as ->. discriminate.
    + injection Hu as ->. discriminate.
  - split; [cbn; lia|]. split; [discriminate|]. intros (_ & _ & parsed & Hparse & Hcheck).
    destruct Hp as (parsed' & Hparse' & Hcheck'). congruence.
  - destruct H as (key & parsed & Hm & Hk & Hne & Hparse & Hcheck & Hrun).
    assert (model_calls (handler w event) = 1) as Hone
      by (destruct Hrun as [[e ->] | [ps ->]]; reflexivity).
    rewrite Hone. split; [lia|]. split; [|reflexivity]. intros _.
    split; [exact Hm|]. split.
    + rewrite Hk. cbn. now apply String.eqb_neq.
    + exists parsed. now split.
Qed.

(** X3.  An exception is logged exactly when the generic internal error
    is answered: the answer is [internal_error] if and only if the trace
    holds a [console.error], and it never holds more than one. *)
Theorem logged_iff_internal_error (w : World) (event : HandlerEvent) :
  (outcome (handler w event) = Return internal_error
   <-> exists e, In (ConsoleError "Error in transform-image function:" e)
                   (trace (handler w event)))
  /\ length (filter is_console_error (trace (handler w event))) <= 1.
Proof.
  pose proof (handler_runs w event) as H. cbv zeta in H.
  assert (forall r, r <> internal_error -> Return r = Return internal_error -> False) as Hdiff
    by (intros r Hr [= ->]; now apply Hr).
  destruct H as [[_ ->] | [(_ & _ & ->) | [(_ & _ & _ & e & ->) | [(_ & _ & _ & ->) | H]]]];
    cbn [outcome trace fst snd].
  - split; [|cbn; lia]. split.
    + intros Hr. exfalso. revert Hr. apply Hdiff, answers_differ_from_internal_error. tauto.
    + intros [e []].
  - split; [|cbn; lia]. split.
    + intros Hr. exfalso. revert Hr. apply Hdiff, answers_differ_from_internal_error. tauto.
    + intros [e [He|[]]]. discriminate He.
  - split; [|cbn; lia]. split; [|reflexivity]. intros _. exists e. cbn. tauto.
  - split; [|cbn; lia]. split.
    + intros Hr. exfalso. revert Hr. apply Hdiff, answers_differ_from_internal_error. tauto.
    + intros [e [He|[He|[]]]]; discriminate He.
  - destruct H as (key & parsed & _ & _ & _ & _ & _ & [[e ->] | [ps ->]]);
      cbn [outcome trace fst snd].
    + split; [|cbn; lia]. split; [|reflexivity]. intros _. exists e. cbn. tauto.
    + split; [|cbn; lia]. split.
      * intros Hr. exfalso. revert Hr. apply Hdiff, map_parts_is_not_internal_error.
      * intros [e [He|[He|[He|[]]]]]; discriminate He.
Qed.

(** X4.  Whatever model call a run makes, it carries the credential of
    the environment, the fixed model name and modalities, and exactly two
    parts: the image data and media type of the parsed body, as they
    were, and one of the two templates. *)
Theorem model_call_provenance (w : World) (event : HandlerEvent) (k : string)
    (params : GenerateContentParameters) :
  In (ModelCall k params) (trace (handler w event)) ->
  env_API_KEY w = Some k
  /\ model params = "gemini-2.5-flash-image-preview"
  /\ responseModalities params = [IMAGE; TEXT]
  /\ exists parsed prompt,
       JSON_parse w (body_or_default event) = inr parsed
       /\ contents_parts params
          = [InlineDataPart (get parsed "base64ImageData") (get parsed "mimeType");
             TextPart prompt]
       /\ (prompt = LOFI_PROMPT \/ prompt = CUTOUT_PROMPT).
Proof.
  pose proof (handler_runs w event) as H. cbv zeta in H.
  destruct H as [[_ ->] | [(_ & _ & ->) | [(_ & _ & _ & e & ->) | [(_ & _ & _ & ->) | H]]]];
    cbn [trace fst In].
  - intros [].
  - intros [He|[]]. discriminate He.
  - intros [He|[He|[He|[]]]]; discriminate He.
  - intros [He|[He|[]]]; discriminate He.
  - destruct H as (key & parsed & _ & Hk & _ & Hparse & _ & Hrun). intros Hin.
    assert (ModelCall key (request_of parsed) = ModelCall k params) as [= <- <-].
    { destruct Hrun as [[e Hrun] | [ps Hrun]]; rewrite Hrun in Hin; cbn [trace fst In] in Hin;
        repeat match goal with
               | H : _ \/ _ |- _ => destruct H
               | H : False |- _ => destruct H
               end; try discriminate; assumption. }
    split; [exact Hk|]. split; [reflexivity|]. split; [reflexivity|].
    exists parsed, (select_prompt (get parsed "style")). split; [exact Hparse|].
    split; [reflexivity|]. unfold select_prompt.
    destruct (strict_eq_string _ _); tauto.
Qed.

(** X5.  A POST request without a body, or with an empty one, is read as
    the text of an empty object: when the parser gives the empty object
    for it, the answer is the 400 of the missing fields, not a server
    error, and the model is not called. *)
Theorem empty_body_is_missing_fields (w : World) (event : HandlerEvent) (key : string) :
  httpMethod event = "POST" -> env_API_KEY w = Some key -> key <> EmptyString ->
  body event = None \/ body event = Some EmptyString ->
  JSON_parse w "{}" = inr (Object []) ->
  handler w event = ([EnvRead "API_KEY"; JsonParse "{}"], Return missing_fields)
  /\ statusCode missing_fields = 400%N.
Proof.
  intros Hm Hk Hne Hbody Hparse.
  assert (body_or_default event = "{}") as Htext
    by (unfold body_or_default; destruct Hbody as [-> | ->]; reflexivity).
  split; [|reflexivity].
  rewrite (handler_missing_fields w event key (Object []) Hm Hk Hne);
    rewrite ?Htext; try discriminate; try reflexivity. exact Hparse.
Qed.

Lemma model_call_provenance_witness :
  env_API_KEY (Sample.world (Some "k-123") (inr (Sample.respond [Sample.png_part])))
  = Some "k-123".
Proof.
  refine (proj1 (model_call_provenance
           (Sample.world (Some "k-123") (inr (Sample.respond [Sample.png_part])))
           (Sample.post Sample.lofi_body) "k-123"
           (model_request (Str "QUJD") (Str "image/png") LOFI_PROMPT) _)).
  vm_compute. right; right; left. reflexivity.
Defined.

Lemma empty_body_is_missing_fields_witness :
  handler (Sample.world (Some "k-123") (inr (Sample.respond [Sample.png_part])))
    {| httpMethod := "POST"; body := None |}
  = ([EnvRead "API_KEY"; JsonParse "{}"], Return missing_fields).
Proof.
  refine (proj1 (empty_body_is_missing_fields
           (Sample.world (Some "k-123") (inr (Sample.respond [Sample.png_part])))
           {| httpMethod := "POST"; body := None |} "k-123"
           eq_refl eq_refl _ (or_introl eq_refl) eq_refl)).
  discriminate.
Defined.

(** ** The Relay Client, run by run *)

(** The two shapes of a run of [transformImage]. *)
Lemma transformImage_run (net : Network) (b m : string) (style : TransformStyle) :
  (exists v, transformImage net b m style = ([the_request b m style], Return v))
  \/ (exists e, transformImage net b m style
                = ([the_request b m style;
                    ConsoleError "Error calling transformation service:" e],
                   Throw (ErrorObject "Error" (rethrown_message e)))).
Proof.
  unfold the_request. run_client.
  destruct (fetch net _ _ _ _) as [e|r].
  { right. exists e. destruct e; reflexivity. }
  destruct (ok r); cbn [negb].
  - destruct (json r) as [e|res].
    { right. exists e. destruct e; reflexivity. }
    destruct res;
      try (right; eexists; apply injective_projections; cbn [fst snd]; reflexivity);
      match goal with |- context [truthy ?x] => destruct (truthy x) end;
      left; eexists; reflexivity.
  - right.
    destruct (json r) as [e|res];
      [eexists; apply injective_projections; cbn [fst snd]; reflexivity|].
    destruct res; try settle_new_Error;
      eexists; apply injective_projections; cbn [fst snd]; reflexivity.
Qed.

(** X6.  A call to [transformImage] sends exactly one request, the POST
    of the serialised image, media type and style, and never a second
    one.  It logs an error exactly when it raises one, and the [Error] it
    raises carries the message of the error it logged (a fixed message
    when what was thrown is no [Error]). *)
Theorem transformImage_one_request (net : Network) (b m : string) (style : TransformStyle) :
  ((exists v, transformImage net b m style = ([the_request b m style], Return v))
   \/ (exists e, transformImage net b m style
                 = ([the_request b m style;
                     ConsoleError "Error calling transformation service:" e],
                    Throw (ErrorObject "Error" (rethrown_message e)))))
  /\ filter is_fetch (trace (transformImage net b m style)) = [the_request b m style]
  /\ (length (filter is_console_error (trace (transformImage net b m style))) = 1
      <-> exists e, outcome (transformImage net b m style) = Throw e).
Proof.
  pose proof (transformImage_run net b m style) as H.
  split; [exact H|].
  destruct H as [[v ->] | [e ->]]; (split; [reflexivity|]); cbn; split;
    try discriminate; try reflexivity.
  - intros [e' He']. discriminate He'.
  - intros _. eexists. reflexivity.
Qed.

(** A POST event is never answered with the 405. *)
Lemma post_answers (w : World) (event : HandlerEvent) (r : HandlerResponse) :
  httpMethod event = "POST" -> outcome (handler w event) = Return r ->
  r = configuration_error \/ r = missing_fields \/ r = internal_error
  \/ r = no_image_response \/ exists blob, r = image_response blob.
Proof.
  intros Hm. pose proof (handler_runs w event) as H. cbv zeta in H.
  destruct H as [[Hm' _] | [(_ & _ & ->) | [(_ & _ & _ & e & ->) | [(_ & _ & _ & ->) | H]]]];
    [contradiction | intros [= <-]; tauto ..|].
  destruct H as (key & parsed & _ & _ & _ & _ & _ & [[e ->] | [ps ->]]); intros [= <-];
    [tauto|].
  destruct (map_parts_answer ps) as [-> | [blob ->]]; [tauto|].
  right; right; right; right. now exists blob.
Qed.

(** X7.  Every failure answer of the Relay Service reaches the caller of
    [transformImage] as an [Error] with the service's own message,
    unchanged and not empty. *)
Theorem service_error_reaches_caller (w : World) (b m : string) (style : TransformStyle)
    (r : HandlerResponse) :
  outcome (handler w (Sample.post (request_body b m style))) = Return r ->
  statusCode r <> 200%N ->
  exists message,
    message <> EmptyString
    /\ response_body r = JSON_stringify [("error", Str message)]
    /\ outcome (transformImage (Sample.relay w) b m style)
       = Throw (ErrorObject "Error" message).
Proof.
  intros Hr Hstatus.
  pose proof (post_answers w (Sample.post (request_body b m style)) r eq_refl Hr) as Hcases.
  destruct (relay_reply w b m style) as (r' & Hr' & Hreply & _).
  rewrite Hr in Hr'. injection Hr' as <-. clear Hr.
  unfold reply_to in Hreply. run_client. rewrite Hreply. clear Hreply.
  destruct Hcases as [-> | [-> | [-> | [-> | [blob ->]]]]];
    [eexists; split; [|split; [reflexivity | vm_compute; reflexivity]]; discriminate ..|].
  now contradiction Hstatus.
Qed.

Lemma service_error_reaches_caller_witness :
  exists message,
    message <> EmptyString
    /\ response_body configuration_error = JSON_stringify [("error", Str message)]
    /\ outcome (transformImage
                  (Sample.relay (Sample.world None (inr (Sample.respond [Sample.png_part]))))
                  "QUJD" "image/png" lofi)
       = Throw (ErrorObject "Error" message).
Proof.
  apply (service_error_reaches_caller
           (Sample.world None (inr (Sample.respond [Sample.png_part])))
           "QUJD" "image/png" lofi configuration_error); [reflexivity | discriminate].
Defined.

(** ** The Encoder, result by result *)

Lemma has_char_take_until (p : ascii -> bool) (s : string) :
  has_char p (take_until p s) = false.
Proof.
  induction s as [|c s IH]; [reflexivity|]. cbn.
  destruct (p c) eqn:Hc; [reflexivity|]. cbn. now rewrite Hc.
Qed.

Lemma has_char_take_until_other (p q : ascii -> bool) (s : string) :
  has_char q s = false -> has_char q (take_until p s) = false.
Proof.
  induction s as [|c s IH]; [reflexivity|]. cbn. intros H.
  apply orb_false_iff in H as [Hc Hs].
  destruct (p c); [reflexivity|]. cbn. now rewrite Hc, IH.
Qed.

Lemma has_char_after (p q : ascii -> bool) (s rest : string) :
  has_char q s = false -> after p s = Some rest -> has_char q rest = false.
Proof.
  induction s as [|c s IH]; [discriminate|]. cbn. intros H.
  apply orb_false_iff in H as [Hc Hs].
  destruct (p c); [now intros [= <-] | now apply IH].
Qed.

Lemma after_some_has_char (p : ascii -> bool) (s rest : string) :
  after p s = Some rest -> has_char p s = true.
Proof.
  induction s as [|c s IH]; [discriminate|]. cbn.
  destruct (p c); [reflexivity|]. exact IH.
Qed.

Lemma has_char_or (p q : ascii -> bool) (s : string) :
  has_char (fun c => p c || q c) s = has_char p s || has_char q s.
Proof.
  induction s as [|c s IH]; [reflexivity|]. cbn. rewrite IH.
  destruct (p c), (q c), (has_char p s), (has_char q s); reflexivity.
Qed.

(** What the [onload] callback settles with. *)
Lemma onload_well_formed (result : string) :
  (forall payload,
      onload result = Resolved payload ->
      base64 payload <> EmptyString
      /\ has_char is_comma (base64 payload) = false
      /\ has_char is_separator (App.mimeType payload) = false
      /\ has_char is_comma result = true
      /\ has_char is_colon (take_until is_comma result) = true)
  /\ (forall reason,
      onload result = Rejected reason -> reason = ErrorObject "Error" "Invalid file format").
Proof.
  rewrite onload_pieces. cbv zeta.
  destruct (after is_comma result) as [rest|] eqn:Hafter.
  2:{ split; [discriminate | now intros reason [= <-]]. }
  destruct ((take_until is_comma result =? EmptyString)
            || (take_until is_comma rest =? EmptyString)) eqn:Hempty.
  { split; [discriminate | now intros reason [= <-]]. }
  apply orb_false_iff in Hempty as [_ Hpayload].
  destruct (after is_colon (take_until is_comma result)) as [afterColon|] eqn:Hcolon.
  2:{ split; discriminate. }
  split; [|discriminate]. intros payload [= <-]. cbn [base64 App.mimeType].
  split; [now apply String.eqb_neq|].
  split; [apply has_char_take_until|].
  split; [|split; [exact (after_some_has_char _ _ _ Hafter)
                  | exact (after_some_has_char _ _ _ Hcolon)]].
  unfold is_separator.
  change (fun c => is_semicolon c || is_colon c || is_comma c)
    with (fun c => (fun c => is_semicolon c || is_colon c) c || is_comma c).
  rewrite has_char_or, has_char_or.
  rewrite has_char_take_until.
  rewrite (has_char_take_until_other is_semicolon is_colon) by apply has_char_take_until.
  rewrite (has_char_take_until_other is_semicolon is_comma); [reflexivity|].
  apply has_char_take_until_other.
  apply (has_char_after is_colon is_comma (take_until is_comma result)); [|exact Hcolon].
  apply has_char_take_until.
Qed.

(** X8.  Whatever the reader does, a payload that [fileToBase64]
    resolves with is well formed: its base64 text is not empty and holds
    no comma, and its media type holds none of [;], [:] and [,].  A
    rejection is [Invalid file format], or the event of a failed read. *)
Theorem resolved_payload_is_well_formed (reader : File -> ReadOutcome) (file : File) :
  (forall payload,
      fileToBase64 reader file = Resolved payload ->
      base64 payload <> EmptyString
      /\ has_char is_comma (base64 payload) = false
      /\ has_char is_separator (App.mimeType payload) = false
      /\ exists result, reader file = Load result /\ has_char is_comma result = true)
  /\ (forall reason,
      fileToBase64 reader file = Rejected reason ->
      reason = ErrorObject "Error" "Invalid file format"
      \/ exists event, reader file = ReadError event /\ reason = NonError event).
Proof.
  unfold fileToBase64. destruct (reader file) as [result|event].
  - destruct (onload_well_formed result) as [Hres Hrej]. split.
    + intros payload Hp. destruct (Hres payload Hp) as (H1 & H2 & H3 & H4 & _).
      repeat split; try assumption. now exists result.
    + intros reason Hr. left. now apply Hrej.
  - split; [discriminate|]. intros reason [= <-]. right. now exists event.
Qed.

(** X9.  On a file the platform reads, the promise of [fileToBase64]
    always settles: it resolves, or it rejects with [Invalid file
    format]; the callback never throws.  When the declared type has no
    comma it rejects exactly when the file is empty. *)
Theorem encoder_always_settles (file : File) :
  ((exists payload, fileToBase64 readAsDataURL file = Resolved payload)
   \/ fileToBase64 readAsDataURL file = Rejected (ErrorObject "Error" "Invalid file format"))
  /\ (has_char is_comma (type file) = false ->
      (fileToBase64 readAsDataURL file = Rejected (ErrorObject "Error" "Invalid file format")
       <-> contents file = [])).
Proof. exact (fileToBase64_settles file). Qed.

Lemma encoder_always_settles_witness :
  fileToBase64 readAsDataURL Sample.empty_file
  = Rejected (ErrorObject "Error" "Invalid file format").
Proof.
  apply (proj2 (encoder_always_settles Sample.empty_file) eq_refl). reflexivity.
Defined.

(** ** [handleTransform], run by run *)

(** The four ways [handleTransform] goes on a picked file. *)
Lemma handleTransform_cases (reader : File -> ReadOutcome) (net : Network) (m : Model)
    (file : File) :
  originalImage m = Some file ->
  let report e := ConsoleError "Transformation failed:" e in
  (exists e, fileToBase64 reader file = Pending e
             /\ handleTransform reader net m = ([], started m))
  \/ (exists e, fileToBase64 reader file = Rejected e
                /\ handleTransform reader net m = ([report e], failed (started m) e))
  \/ (exists payload v d,
         fileToBase64 reader file = Resolved payload
         /\ outcome (transformImage net (base64 payload) (App.mimeType payload)
                       (selectedStyle m)) = Return v
         /\ truthy v = true
         /\ ToString v = inr d
         /\ handleTransform reader net m
            = ([the_request (base64 payload) (App.mimeType payload) (selectedStyle m)],
               displayed m d))
  \/ (exists payload logs e,
         fileToBase64 reader file = Resolved payload
         /\ filter is_fetch logs = []
         /\ handleTransform reader net m
            = ((the_request (base64 payload) (App.mimeType payload) (selectedStyle m)
                :: logs ++ [report e])%list,
               failed (started m) e)).
Proof.
  intros Hfile. cbv zeta. unfold handleTransform, displayed, started, failed.
  rewrite !Hfile.
  destruct (fileToBase64 reader file) as [payload|e|e].
  - right; right.
    destruct (transformImage_run net (base64 payload) (App.mimeType payload) (selectedStyle m))
      as [[v Hrun] | [e Hrun]]; rewrite Hrun.
    + destruct (truthy v) eqn:Hv; cbn [negb].
      * destruct (ToString v) as [e|d] eqn:Hd.
        -- right. exists payload, [], e. split; [reflexivity|]. split; reflexivity.
        -- left. exists payload, v, d. rewrite Hrun.
           repeat split; assumption || reflexivity.
      * right.
        exists payload, [],
          (ErrorObject "Error" "The AI couldn't transform the image. Please try another one.").
        split; [reflexivity|]. split; reflexivity.
    + right.
      exists payload, [ConsoleError "Error calling transformation service:" e],
        (ErrorObject "Error" (rethrown_message e)).
      split; [reflexivity|]. split; reflexivity.
  - right; left. exists e. now split.
  - left. exists e. now split.
Qed.

(** A run on a picked file whose Encoder resolves and whose
    [transformImage] returns a truthy value that has a text: the picture
    is made of that text. *)
Lemma handleTransform_displays (reader : File -> ReadOutcome) (net : Network) (m : Model)
    (file : File) (payload : ImagePayload) (v : value) (d : string) :
  originalImage m = Some file ->
  fileToBase64 reader file = Resolved payload ->
  outcome (transformImage net (base64 payload) (App.mimeType payload) (selectedStyle m))
    = Return v ->
  truthy v = true -> ToString v = inr d ->
  snd (handleTransform reader net m) = displayed m d.
Proof.
  intros Hfile Hres Hout Hv Hd. unfold handleTransform, displayed.
  rewrite Hfile, Hres.
  destruct (transformImage net _ _ _) as [t r]. cbn [outcome snd] in Hout. subst r.
  now rewrite Hv, Hd.
Qed.

Ltac frame_done :=
  repeat split; intros;
  try match goal with H : Some _ = Some _ |- _ => injection H as <- end;
  try discriminate; try congruence; try (cbn; lia); try assumption;
  try (eexists; reflexivity);
  try (eexists; cbn; tauto);
  try (do 3 eexists; repeat split; (eassumption || reflexivity));
  try (eexists; right; apply in_or_app; right; left; reflexivity);
  try (exfalso; match goal with H : forall p, _ <> _ |- _ => eapply H; eassumption end);
  try (match goal with
       | H : forall f p v d, _ -> _ -> _ -> _ -> _ -> _ = displayed _ d |- _ =>
           eapply H; (eassumption || reflexivity)
       end).

(** X10.  [handleTransform] keeps the picked file and the chosen style,
    does nothing at all without a file, and sends at most one request,
    none when the Encoder does not resolve.  It ends in [displaying]
    exactly on the picture made of what [transformImage] returned: the
    Encoder resolved, [transformImage] returned a truthy value for its
    payload and the chosen style, and the picture is
    [data:image/png;base64,] followed by the text of that value, with an
    empty message; and every such run does end so.  When it ends in
    [error] the picture is the one there was before and the failure has
    been logged. *)
Theorem handleTransform_frame (reader : File -> ReadOutcome) (net : Network) (m : Model) :
  let run := handleTransform reader net m in
  originalImage (snd run) = originalImage m
  /\ selectedStyle (snd run) = selectedStyle m
  /\ (originalImage m = None -> run = ([], m))
  /\ length (filter is_fetch (fst run)) <= 1
  /\ (forall file,
        originalImage m = Some file ->
        (forall payload, fileToBase64 reader file <> Resolved payload) ->
        filter is_fetch (fst run) = [])
  /\ (forall file,
        originalImage m = Some file -> appState (snd run) = displaying ->
        errorMessage (snd run) = EmptyString
        /\ exists payload v d,
             fileToBase64 reader file = Resolved payload
             /\ outcome (transformImage net (base64 payload) (App.mimeType payload)
                           (selectedStyle m)) = Return v
             /\ truthy v = true
             /\ ToString v = inr d
             /\ transformedImage (snd run) = Some ("data:image/png;base64," ++ d))
  /\ (forall file payload v d,
        originalImage m = Some file ->
        fileToBase64 reader file = Resolved payload ->
        outcome (transformImage net (base64 payload) (App.mimeType payload)
                   (selectedStyle m)) = Return v ->
        truthy v = true -> ToString v = inr d ->
        snd run = displayed m d)
  /\ (forall file,
        originalImage m = Some file -> appState (snd run) = error ->
        transformedImage (snd run) = transformedImage m
        /\ exists e, In (ConsoleError "Transformation failed:" e) (fst run)).
Proof.
  cbv zeta.
  pose proof (handleTransform_displays reader net m) as Hdisplays.
  destruct (originalImage m) as [file|] eqn:Hfile.
  2:{ unfold handleTransform. rewrite Hfile. cbn. rewrite Hfile.
      repeat split; try discriminate; lia. }
  pose proof (handleTransform_cases reader net m file Hfile) as H. cbv zeta in H.
  destruct H as [(e & Hp & Hrun) | [(e & Hr & Hrun)
                | [(p & v & d & Hres & Hout & Hv & Hd & Hrun)
                  | (p & logs & e & Hres & Hlogs & Hrun)]]];
    rewrite Hrun in *;
    cbn [fst snd originalImage selectedStyle appState transformedImage errorMessage
         started failed displayed].
  - frame_done.
  - frame_done.
  - frame_done.
  - assert (filter is_fetch
              (the_request (base64 p) (App.mimeType p) (selectedStyle m)
               :: logs ++ [ConsoleError "Transformation failed:" e])%list
            = [the_request (base64 p) (App.mimeType p) (selectedStyle m)]) as Hf
      by (cbn; rewrite filter_app, Hlogs; reflexivity).
    rewrite Hf. frame_done.
Qed.

(** Against the Relay Service, on a file the platform reads,
    [handleTransform] ends on a picture that is not empty or on a message
    that is not empty. *)
Lemma handleTransform_against_relay (w : World) (m : Model) (file : File) :
  originalImage m = Some file ->
  (exists d, d <> EmptyString
             /\ snd (handleTransform readAsDataURL (Sample.relay w) m) = displayed m d)
  \/ (exists e message,
         message <> EmptyString
         /\ e = ErrorObject "Error" message
         /\ snd (handleTransform readAsDataURL (Sample.relay w) m) = failed (started m) e).
Proof.
  intros Hfile. unfold handleTransform, displayed, started, failed. rewrite !Hfile.
  destruct (proj1 (fileToBase64_settles file)) as [[payload ->] | ->].
  2:{ right. eexists _, _. split; [|split; reflexivity]. discriminate. }
  destruct (client_against_relay w (base64 payload) (App.mimeType payload) (selectedStyle m))
    as [(d & Hd & Hne) | [Hnull | (message & Hthrow & Hne)]];
    destruct (transformImage _ _ _ _) as [t r]; cbn [outcome snd] in *; subst r.
  - left. exists d. split; [exact Hne|].
    cbn [truthy]. apply String.eqb_neq in Hne. rewrite Hne. reflexivity.
  - right. eexists _, _. split; [|split; reflexivity]. discriminate.
  - right. exists (ErrorObject "Error" message), message. repeat split. exact Hne.
Qed.

(** X11.  Against the Relay Service, whatever the world behind it, a
    transformation of a file the platform reads never stays in
    [loading]: it ends in [displaying] with a picture whose base64 text
    is not empty and no message, or in [error] with a message that is not
    empty and the picture there was before. *)
Theorem transform_ends_on_picture_or_message (w : World) (m : Model) (file : File) :
  originalImage m = Some file ->
  let m' := snd (handleTransform readAsDataURL (Sample.relay w) m) in
  (appState m' = displaying
   /\ errorMessage m' = EmptyString
   /\ exists d, d <> EmptyString
                /\ transformedImage m' = Some ("data:image/png;base64," ++ d))
  \/ (appState m' = error
      /\ errorMessage m' <> EmptyString
      /\ transformedImage m' = transformedImage m).
Proof.
  intros Hfile. cbv zeta.
  destruct (handleTransform_against_relay w m file Hfile)
    as [(d & Hd & ->) | (e & message & Hne & -> & ->)].
  - left. repeat split. now exists d.
  - right. repeat split. exact Hne.
Qed.

Lemma transform_ends_on_picture_or_message_witness :
  appState (snd (handleTransform readAsDataURL
                   (Sample.relay (Sample.world None (inr (Sample.respond [Sample.png_part]))))
                   {| originalImage := Some Sample.png_file;
                      transformedImage := None;
                      appState := idle;
                      errorMessage := EmptyString;
                      selectedStyle := lofi |}))
  <> loading.
Proof.
  destruct (transform_ends_on_picture_or_message
              (Sample.world None (inr (Sample.respond [Sample.png_part])))
              {| originalImage := Some Sample.png_file;
                 transformedImage := None;
                 appState := idle;
                 errorMessage := EmptyString;
                 selectedStyle := lofi |}
              Sample.png_file eq_refl) as [(Hs & _) | (Hs & _)];
    rewrite Hs; discriminate.
Defined.

Lemma request_body_is_not_empty (b m : string) (style : TransformStyle) :
  body_or_default (Sample.post (request_body b m style)) = request_body b m style.
Proof. reflexivity. Qed.

Lemma request_of_request_object (b m : string) (style : TransformStyle) :
  request_of (request_object b m style) = model_request (Str b) (Str m) (template_of style).
Proof. destruct style; reflexivity. Qed.

Lemma separator_free_has_no_comma (s : string) :
  has_char is_separator s = false -> has_char is_comma s = false.
Proof.
  induction s as [|c s IH]; [reflexivity|]. cbn. unfold is_separator at 1.
  intros H. apply orb_false_iff in H as [Hc Hs].
  apply orb_false_iff in Hc as [_ ->]. now apply IH.
Qed.

(** X12.  From the file to the screen.  For a file that is not empty,
    with a plain declared type, a credential, a server whose parser reads
    the client's body back, and a model that answers with parts of which
    the first with inline data carries [d]: the model is asked with the
    base64 text of the file, its declared type and the template of the
    chosen style, and the application ends in [displaying] with the
    picture [data:image/png;base64,d], whatever media type the model
    declared for it. *)
Theorem picture_reaches_screen (w : World) (key : string) (m : Model) (file : File)
    (c : Candidate) (cs : list Candidate) (ct : Content)
    (pre post : list Part) (p : Part) (blob : Blob) (d : string) :
  let b := Base64.encode (contents file) in
  let style := selectedStyle m in
  originalImage m = Some file ->
  contents file <> [] ->
  type file <> EmptyString -> has_char is_separator (type file) = false ->
  env_API_KEY w = Some key -> key <> EmptyString ->
  JSON_parse w (request_body b (type file) style) = inr (request_object b (type file) style) ->
  generateContent w key (model_request (Str b) (Str (type file)) (template_of style))
    = inr {| candidates := Some (c :: cs) |} ->
  content c = Some ct -> parts ct = Some (pre ++ p :: post)%list ->
  Forall no_inline_data pre -> inlineData p = Some blob ->
  data blob = Some d -> d <> EmptyString ->
  snd (handleTransform readAsDataURL (Sample.relay w) m) = displayed m d
  /\ filter is_model_call
       (trace (handler w (Sample.post (request_body b (type file) style))))
     = [ModelCall key (model_request (Str b) (Str (type file)) (template_of style))].
Proof.
  intros b style Hfile Hbytes Htype Hsep Hk Hne Hparse Hgen Hc Hct Hpre Hp Hd Hdne.
  assert (presence_check (request_object b (type file) style) = true) as Hcheck.
  { unfold presence_check, request_object. cbn.
    apply (encode_is_not_empty (contents file)), String.eqb_neq in Hbytes.
    apply String.eqb_neq in Htype. fold b in Hbytes. rewrite Hbytes, Htype.
    destruct style; reflexivity. }
  pose proof (handler_reaches_model w (Sample.post (request_body b (type file) style)) key
                (request_object b (type file) style) eq_refl Hk Hne Hparse Hcheck) as Hrun.
  cbv zeta in Hrun. rewrite request_of_request_object, Hgen in Hrun.
  unfold response_parts in Hrun. cbn [candidates outcome snd] in Hrun.
  rewrite Hc, Hct in Hrun. cbn [ret outcome snd] in Hrun.
  rewrite (map_parts_first pre post p blob Hpre Hp) in Hrun.
  split; [|rewrite Hrun; reflexivity].
  assert (fileToBase64 readAsDataURL file
          = Resolved {| base64 := b; App.mimeType := type file |}) as Hread.
  { rewrite (fileToBase64_plain_type file (separator_free_has_no_comma _ Hsep)).
    assert (written_type file = type file) as ->
      by (unfold written_type; apply String.eqb_neq in Htype; now rewrite Htype).
    apply (encode_is_not_empty (contents file)), String.eqb_neq in Hbytes.
    rewrite Hbytes, (take_until_none is_separator _ Hsep). reflexivity. }
  assert (outcome (transformImage (Sample.relay w) b (type file) style) = Return (Str d))
    as Hclient.
  { rewrite (transformImage_success (Sample.relay w) b (type file) style
               {| status := 200;
                  json := inr (Object [("transformedBase64", Str d)]) |}
               (Object [("transformedBase64", Str d)])); try reflexivity; try discriminate.
    - cbn [get lookup String.eqb Ascii.eqb Bool.eqb truthy].
      apply String.eqb_neq in Hdne. now rewrite Hdne.
    - unfold reply_to, Sample.relay. cbn [fetch].
      fold (Sample.post (request_body b (type file) style)). rewrite Hrun.
      cbn [outcome snd]. unfold image_response. cbn [statusCode response_body].
      rewrite Hd. cbn [optional_string]. now rewrite parse_stringify_string. }
  unfold handleTransform, displayed. rewrite Hfile, Hread. cbn [base64 App.mimeType].
  fold style. destruct (transformImage (Sample.relay w) b (type file) style) as [t r].
  cbn [outcome snd] in Hclient. subst r.
  cbn [truthy]. apply String.eqb_neq in Hdne. rewrite Hdne. reflexivity.
Qed.

Lemma picture_reaches_screen_witness :
  snd (handleTransform readAsDataURL
         (Sample.relay (Sample.world (Some "k-123")
                          (inr (Sample.respond [Sample.text_part; Sample.jpeg_part]))))
         {| originalImage := Some Sample.png_file;
            transformedImage := None;
            appState := idle;
            errorMessage := EmptyString;
            selectedStyle := cutout |})
  = displayed {| originalImage := Some Sample.png_file;
                 transformedImage := None;
                 appState := idle;
                 errorMessage := EmptyString;
                 selectedStyle := cutout |} "REVG".
Proof.
  refine (proj1 (picture_reaches_screen
           (Sample.world (Some "k-123")
              (inr (Sample.respond [Sample.text_part; Sample.jpeg_part])))
           "k-123"
           {| originalImage := Some Sample.png_file;
              transformedImage := None;
              appState := idle;
              errorMessage := EmptyString;
              selectedStyle := cutout |}
           Sample.png_file _ [] _ [Sample.text_part] [] Sample.jpeg_part _ "REVG"
           eq_refl _ _ eq_refl eq_refl _ eq_refl eq_refl eq_refl eq_refl _ eq_refl eq_refl _));
    try discriminate.
  repeat constructor.
Defined.

(** ** The application as a state machine *)

(** What every reachable state satisfies. *)
Lemma reachable_invariant (m : Model) :
  reachable m ->
  (originalImage m = None ->
   transformedImage m = None /\ appState m = idle /\ errorMessage m = EmptyString)
  /\ (appState m = displaying ->
      errorMessage m = EmptyString
      /\ exists d, transformedImage m = Some ("data:image/png;base64," ++ d)).
Proof.
  induction 1 as [|m m' Hreach [IHnone IHdisp] Hstep].
  - split; [now repeat split | discriminate].
  - destruct Hstep as [file m | reader net m | m | style m].
    + destruct file as [f|]; cbn; [split; discriminate | now split].
    + destruct (originalImage m) as [file|] eqn:Hfile.
      2:{ unfold handleTransform. rewrite Hfile. cbn [snd]. rewrite Hfile. now split. }
      pose proof (handleTransform_cases reader net m file Hfile) as H. cbv zeta in H.
      destruct H as [(e & _ & ->) | [(e & _ & ->) | [(p & v & d & _ & _ & _ & _ & ->)
                                                    | (p & logs & e & _ & _ & ->)]]];
        cbn [snd started failed displayed originalImage appState errorMessage
             transformedImage]; rewrite Hfile;
        (split; [discriminate|]); try discriminate.
      intros _. split; [reflexivity|]. now eexists.
    + cbn. split; [now repeat split | discriminate].
    + cbn. now split.
Qed.

(** X13.  On every state the application can reach, the screen follows
    [appState] alone: the loader in [loading], the result in
    [displaying], always with a [data:image/png;base64,] picture to show,
    the preview with its error in [error], and in [idle] the upload
    splash without a file and the preview without error with one.  A
    state without a file has no picture and no message. *)
Theorem screen_follows_state (m : Model) :
  reachable m ->
  (appState m = loading -> render m = ShowLoader)
  /\ (appState m = displaying ->
      exists d, transformedImage m = Some ("data:image/png;base64," ++ d)
                /\ render m = ShowResultDisplay ("data:image/png;base64," ++ d)
                                (styleTitle (selectedStyle m)))
  /\ (appState m = error ->
      render m = ShowPreviewAndTransform true (errorMessage m) (selectedStyle m))
  /\ (appState m = idle ->
      render m = match originalImage m with
                 | None => ShowUploadSplash
                 | Some _ => ShowPreviewAndTransform false (errorMessage m) (selectedStyle m)
                 end)
  /\ (originalImage m = None ->
      transformedImage m = None /\ appState m = idle /\ errorMessage m = EmptyString).
Proof.
  intros Hreach. destruct (reachable_invariant m Hreach) as [Hnone Hdisp].
  unfold render. repeat split.
  - now intros ->.
  - intros Hs. destruct (Hdisp Hs) as (_ & d & Hd). exists d. split; [exact Hd|].
    rewrite Hs. cbn [is_loading is_displaying].
    destruct (originalImage m) as [file|] eqn:Hfile.
    + rewrite Hd. reflexivity.
    + destruct (Hnone eq_refl) as (_ & Hidle & _). congruence.
  - intros Hs. rewrite Hs. cbn [is_loading is_displaying is_error].
    destruct (originalImage m) as [file|] eqn:Hfile; [reflexivity|].
    destruct (Hnone eq_refl) as (_ & Hidle & _). congruence.
  - intros Hs. rewrite Hs. cbn [is_loading is_displaying is_error].
    destruct (originalImage m); reflexivity.
  - now apply Hnone.
  - now apply Hnone.
  - now apply Hnone.
Qed.

Lemma screen_follows_state_witness :
  render (handleFileChange (Some Sample.png_file) initial)
  = ShowPreviewAndTransform false EmptyString lofi.
Proof.
  refine (proj1 (proj2 (proj2 (proj2 (screen_follows_state
            (handleFileChange (Some Sample.png_file) initial) _)))) eq_refl).
  exact (reachable_step initial _ reachable_initial
           (step_file (Some Sample.png_file) initial)).
Defined.

(** ** The loading messages *)

Lemma nextMessage_of_element (i : nat) :
  i < 8 ->
  nextMessage (nth_error loadingMessages i) = nth_error loadingMessages ((i + 1) mod 8).
Proof.
  intros Hi. do 8 (destruct i as [|i]; [vm_compute; reflexivity|]). lia.
Qed.

Lemma after_ticks_from (n i : nat) :
  i < 8 ->
  after_ticks n (nth_error loadingMessages i) = nth_error loadingMessages ((i + n) mod 8).
Proof.
  revert i. induction n as [|n IH]; intros i Hi.
  - now rewrite Nat.add_0_r, Nat.mod_small.
  - cbn [after_ticks]. rewrite (nextMessage_of_element i Hi).
    rewrite IH by (apply Nat.mod_upper_bound; lia).
    rewrite Nat.Div0.add_mod_idemp_l. f_equal. f_equal. lia.
Qed.

Lemma indexOf_from_absent (i : Z) (xs : list string) (x : string) :
  ~ In x xs -> indexOf_from i xs x = (-1)%Z.
Proof.
  revert i. induction xs as [|y xs IH]; intros i Hx; [reflexivity|]. cbn.
  destruct (String.eqb_spec y x) as [->|_]; [exfalso; apply Hx; now left|].
  apply IH. intros H. apply Hx. now right.
Qed.

(** X14.  The loader shows the eight messages in their order and starts
    again after the last: after [n] ticks the message is number
    [n mod 8].  From a text that is none of the eight the next message is
    the first; the next message is always one of the eight. *)
Theorem loader_cycles :
  (forall n, after_ticks n initialMessage = nth_error loadingMessages (n mod 8))
  /\ (forall text, ~ In text loadingMessages ->
                   nextMessage (Some text) = nth_error loadingMessages 0)
  /\ (forall prev, exists text, nextMessage prev = Some text /\ In text loadingMessages).
Proof.
  split; [|split].
  - intros n. change initialMessage with (nth_error loadingMessages 0).
    now rewrite (after_ticks_from n 0) by lia.
  - intros text Habsent. unfold nextMessage, indexOf.
    now rewrite (indexOf_from_absent 0 loadingMessages text Habsent).
  - intros [text|]; [|eexists; split; [vm_compute; reflexivity | cbn; tauto]].
    destruct (in_dec string_dec text loadingMessages) as [Hin|Habsent].
    + cbn in Hin.
      repeat (destruct Hin as [<-|Hin];
              [eexists; split; [vm_compute; reflexivity | cbn; tauto]|]).
      destruct Hin.
    + unfold nextMessage, indexOf.
      rewrite (indexOf_from_absent 0 loadingMessages text Habsent).
      eexists. split; [vm_compute; reflexivity | cbn; tauto].
Qed.

(** ** The name of the downloaded file *)

Lemma lower_char_is_no_capital (c : ascii) : is_capital (lower_char c) = false.
Proof.
  unfold lower_char, is_capital. cbv zeta.
  pose proof (N_ascii_bounded c) as Hb.
  destruct (((65 <=? N_of_ascii c) && (N_of_ascii c <=? 90)
             || (192 <=? N_of_ascii c) && (N_of_ascii c <=? 222)
                && negb (N_of_ascii c =? 215))%N) eqn:Hcond.
  - assert (N_of_ascii c <= 222)%N as Hle.
    { revert Hcond. split_comparisons; try discriminate; lia. }
    rewrite N_ascii_embedding by lia.
    revert Hcond. split_comparisons; try discriminate; try reflexivity; lia.
  - revert Hcond. split_comparisons; try discriminate; try reflexivity; lia.
Qed.

Lemma toLowerCase_has_no_capital (s : string) : has_char is_capital (toLowerCase s) = false.
Proof.
  induction s as [|c s IH]; [reflexivity|]. cbn.
  now rewrite lower_char_is_no_capital, IH.
Qed.

Lemma replace_spaces_has_no_space (in_run : bool) (s : string) :
  has_char is_space (replace_spaces in_run s) = false.
Proof.
  revert in_run. induction s as [|c s IH]; intros in_run; [reflexivity|]. cbn.
  destruct (is_space c) eqn:Hc.
  - destruct in_run; [apply IH|]. cbn. now rewrite IH.
  - cbn. now rewrite Hc, IH.
Qed.

Lemma replace_spaces_keeps_no_capital (in_run : bool) (s : string) :
  has_char is_capital s = false -> has_char is_capital (replace_spaces in_run s) = false.
Proof.
  revert in_run. induction s as [|c s IH]; intros in_run; [reflexivity|]. cbn.
  intros H. apply orb_false_iff in H as [Hc Hs].
  destruct (is_space c).
  - destruct in_run; [now apply IH|]. cbn. now rewrite IH.
  - cbn. now rewrite Hc, IH.
Qed.

(** X15.  Whatever the title, the name of the downloaded file holds no
    white space and no capital letter; the two styles give two different
    names. *)
Theorem download_name_is_clean (title : string) :
  has_char is_space (fileName title) = false
  /\ has_char is_capital (fileName title) = false
  /\ fileName (styleTitle lofi) = "2000s-flashback-2000s-lofi.png"
  /\ fileName (styleTitle cutout) = "2000s-flashback-paper-cutout.png".
Proof.
  unfold fileName. repeat split.
  - rewrite !has_char_app, replace_spaces_has_no_space. reflexivity.
  - rewrite !has_char_app, replace_spaces_keeps_no_capital
      by apply toLowerCase_has_no_capital.
    reflexivity.
Qed.

(** ** The client's request, read back *)

(** One member of an object followed by a comma: the reader goes on with
    the next member. *)
Lemma read_members_more (fuel : nat) (k d rest : string) (acc : list (string * value)) :
  JsonReader.read_members (S (S fuel)) (member_text k d (String ","%char rest)) acc
  = JsonReader.read_members (S fuel) rest (JsonReader.set_prop k (Str d) acc).
Proof.
  unfold member_text.
  remember (quote_body k ++ _) as tail eqn:Htail.
  remember (S fuel) as fuel' eqn:Hfuel.
  cbn [JsonReader.read_members JsonReader.skip_ws].
  change (JsonReader.is_ws dq_char) with false. cbv iota.
  rewrite Ascii.eqb_refl. subst tail. rewrite read_string_quote.
  cbn [JsonReader.skip_ws]. change (JsonReader.is_ws ":"%char) with false. cbv iota.
  subst fuel'. rewrite read_value_string.
  cbn [JsonReader.skip_ws]. change (JsonReader.is_ws ","%char) with false. cbv iota.
  reflexivity.
Qed.

(** The text [transformImage] sends, member by member. *)
Lemma request_body_text (b m : string) (style : TransformStyle) :
  request_body b m style
  = String "{"%char
      (member_text "base64ImageData" b (String ","%char
        (member_text "mimeType" m (String ","%char
          (member_text "style" (style_id style) "}"))))).
Proof.
  unfold request_body, JSON_stringify, member_text.
  cbn [SerializeJSONProperty flat_map snd fst app String.concat].
  unfold QuoteJSONString, dq. cbn [append].
  repeat (rewrite !append_assoc; cbn [append]). reflexivity.
Qed.

(** Three members in a row, the last one closing the object. *)
Lemma read_three_members (fuel : nat) (b m s : string) :
  JsonReader.read_members (S (S (S (S fuel))))
    (member_text "base64ImageData" b (String ","%char
       (member_text "mimeType" m (String ","%char (member_text "style" s "}"))))) []
  = Some (Object [("base64ImageData", Str b); ("mimeType", Str m); ("style", Str s)],
          EmptyString).
Proof.
  rewrite read_members_more, read_members_more.
  unfold member_text. rewrite read_members_last. reflexivity.
Qed.

(** An opening brace followed by a member: the reader goes on with the
    members. *)
Lemma read_object_text (fuel : nat) (k d rest : string) :
  JsonReader.read_value (S fuel) (String "{"%char (member_text k d rest))
  = JsonReader.read_members fuel (member_text k d rest) [].
Proof.
  unfold member_text.
  remember (quote_body k ++ _) as tail eqn:Htail.
  cbn [JsonReader.read_value JsonReader.skip_ws].
  change (JsonReader.is_ws "{"%char) with false. cbv iota.
  rewrite Ascii.eqb_refl.
  change (JsonReader.is_ws dq_char) with false. cbv iota.
  unfold dq_char at 1. cbv iota. reflexivity.
Qed.

(** What the client serialises, a JSON reader gives back: the image data,
    the media type and the style, whatever characters they hold. *)
Lemma request_body_parse (b m : string) (style : TransformStyle) :
  JsonReader.JSON_parse (request_body b m style) = inr (request_object b m style).
Proof.
  unfold JsonReader.JSON_parse. rewrite request_body_text.
  assert (exists fuel,
             String.length
               (String "{"%char
                  (member_text "base64ImageData" b (String ","%char
                     (member_text "mimeType" m (String ","%char
                        (member_text "style" (style_id style) "}"))))))
             = S (S (S (S fuel)))) as [fuel ->].
  { unfold member_text at 1.
    change (quote_body "base64ImageData") with "base64ImageData".
    cbn [String.length append]. eauto. }
  rewrite read_object_text, read_three_members. reflexivity.
Qed.

(** X16.  The client and the service agree on the request.  What
    [transformImage] serialises (image data, media type, style
    identifier), a JSON reader gives back field by field, whatever
    characters the fields hold; and a service whose parser reads that
    text back so calls the model exactly when neither the image data nor
    the media type is empty, once, with the data, the media type and the
    template of the style the client chose.  With an empty field the
    answer is the 400 of the presence check. *)
Theorem client_request_selects_template (w : World) (event : HandlerEvent)
    (key b m : string) (style : TransformStyle) :
  httpMethod event = "POST" -> body event = Some (request_body b m style) ->
  env_API_KEY w = Some key -> key <> EmptyString ->
  JSON_parse w (request_body b m style) = inr (request_object b m style) ->
  JsonReader.JSON_parse (request_body b m style) = inr (request_object b m style)
  /\ filter is_model_call (trace (handler w event))
     = (if (b =? EmptyString) || (m =? EmptyString) then []
        else [ModelCall key (model_request (Str b) (Str m) (template_of style))])
  /\ ((b =? EmptyString) || (m =? EmptyString) = true ->
      outcome (handler w event) = Return missing_fields).
Proof.
  intros Hm Hbody Hk Hne Hreader.
  pose proof (request_body_parse b m style) as Hread.
  assert (JSON_parse w (body_or_default event) = inr (request_object b m style)) as Hparse.
  { unfold body_or_default. rewrite Hbody.
    rewrite request_body_text at 1. cbn [String.eqb]. exact Hreader. }
  split; [exact Hread|].
  assert (presence_check (request_object b m style)
          = negb ((b =? EmptyString) || (m =? EmptyString))) as Hcheck.
  { unfold presence_check, request_object.
    cbn [get lookup String.eqb Ascii.eqb Bool.eqb truthy].
    destruct (b =? EmptyString), (m =? EmptyString), style; reflexivity. }
  destruct ((b =? EmptyString) || (m =? EmptyString)); cbn [negb] in Hcheck.
  - rewrite (handler_missing_fields w event key (request_object b m style)
               Hm Hk Hne Hparse); try discriminate; [|exact Hcheck].
    split; reflexivity.
  - rewrite (handler_model_calls w event key (request_object b m style)
               Hm Hk Hne Hparse Hcheck), request_of_request_object.
    split; [reflexivity | discriminate].
Qed.

Lemma client_request_selects_template_witness :
  filter is_model_call
    (trace (handler (Sample.world (Some "k-123") (inr (Sample.respond [Sample.png_part])))
              (Sample.post (request_body "REVG" "image/png" lofi))))
  = [ModelCall "k-123" (model_request (Str "REVG") (Str "image/png") LOFI_PROMPT)].
Proof.
  exact (proj1 (proj2 (client_request_selects_template
           (Sample.world (Some "k-123") (inr (Sample.respond [Sample.png_part])))
           (Sample.post (request_body "REVG" "image/png" lofi))
           "k-123" "REVG" "image/png" lofi
           eq_refl eq_refl eq_refl ltac:(discriminate) eq_refl))).
Defined.
